(** * Crescent City inundation notebook: colour ramp, masking and raster grid

    A shallow embedding of the computational parts of
    [notebooks/Crescent_City_Inundation_CartopyMap.ipynb]:

    - [discrete_cmap_1], the discrete colour map builder (cell 24), as a
      function of its argument and as a call on the heap of Python objects;
    - the masking cell ([hmax_dry], [hmax_onshore], cell 22) and the
      maximum depth of the title, [hmax_onshore.max()] (cell 28);
    - the raster loader [read_asc_file] of [data_tools.py], which the
      notebook only imports.

    The notebook computes with numpy [float64] values.  All definitions are
    written once over an interface of arithmetic operations ([Float64Ops])
    and read at two instances: IEEE binary64 ([PrimFloat]), the arithmetic
    of the notebook, and exact rationals ([Qc]), the arithmetic the
    specification's formulas are read in.  What depends on the structure of
    the code alone is proved for every instance; what depends on rounding
    is proved in binary64 by evaluation, for every breaks sequence up to a
    stated length. *)

From Stdlib Require Import ZArith QArith Qcanon Floats Lia.
From stdpp Require Import base numbers list strings gmap.

Local Open Scope Z_scope.

(** ** Python exceptions as an error monad *)

Inductive exn : Set :=
  ValueError | IndexError | TypeError | FormatError | IOError.

Inductive result (A : Type) : Type :=
  | Ok (a : A)
  | Raise (e : exn).
Global Arguments Ok {A} a.
Global Arguments Raise {A} e.

Global Instance result_ret : MRet result := λ A a, Ok a.
Global Instance result_bind : MBind result := λ A B f m,
  match m with
  | Ok a => f a
  | Raise e => Raise e
  end.

(** ** The arithmetic the notebook uses *)

Class Float64Ops (F : Type) := {
  of_Z : Z → F;
  fadd : F → F → F;
  fsub : F → F → F;
  fmul : F → F → F;
  fdiv : F → F → F;
  feqb : F → F → bool;
  fltb : F → F → bool;
}.

(** A decimal literal [n/d] of the source ([0.8] is [dec 8 10]). *)
Definition dec `{Float64Ops F} (n d : Z) : F := fdiv (of_Z n) (of_Z d).

(** Exact rational arithmetic. *)
Global Instance Qc_ops : Float64Ops Qc := {|
  of_Z := Qc_of_Z;
  fadd := Qcplus;
  fsub := Qcminus;
  fmul := Qcmult;
  fdiv := Qcdiv;
  feqb := λ x y, bool_decide (x = y);
  fltb := λ x y, bool_decide (x < y)%Qc;
|}.

(** IEEE 754 binary64, as numpy's [float64]. *)
Definition float_of_Z (z : Z) : float :=
  match z with
  | Z0 => PrimFloat.zero
  | Zpos _ => PrimFloat.of_uint63 (Uint63.of_Z z)
  | Zneg p => PrimFloat.opp (PrimFloat.of_uint63 (Uint63.of_Z (Zpos p)))
  end.

Definition binary64_ops : Float64Ops float := {|
  of_Z := float_of_Z;
  fadd := PrimFloat.add;
  fsub := PrimFloat.sub;
  fmul := PrimFloat.mul;
  fdiv := PrimFloat.div;
  feqb := PrimFloat.eqb;
  fltb := PrimFloat.ltb;
|}.

(** The laws of the order that taking a maximum relies on.  A value [x]
    with [feqb x x = false] is a NaN: it compares false with everything. *)
Class Float64Order (F : Type) `{Float64Ops F} := {
  fltb_irrefl (x : F) : fltb x x = false;
  fltb_trans (x y z : F) :
    fltb x y = true → fltb y z = true → fltb x z = true;
  feqb_not_lt (x y : F) : feqb x y = true → fltb x y = false;
  fltb_total (x y : F) :
    feqb x x = true → feqb y y = true →
    fltb y x = false → feqb x y = false → fltb x y = true;
  nan_unordered (x y : F) :
    feqb y y = false →
    fltb y x = false ∧ fltb x y = false ∧ feqb x y = false;
}.

(** Equality of binary64 values, bit for bit, is decidable. *)
Global Instance float_eq_dec : EqDecision float := λ x y,
  match Leibniz.eqb x y as b return Leibniz.eqb x y = b → Decision (x = y) with
  | true => λ E, left (proj1 (FloatAxioms.Leibniz.eqb_spec x y) E)
  | false => λ E, right (λ Exy,
      eq_ind true (λ b : bool, if b then True else False) I false
        (eq_trans (eq_sym (proj2 (FloatAxioms.Leibniz.eqb_spec x y) Exy)) E))
  end eq_refl.

(** ** The numpy functions the colour map builder calls

    [linspace], [ones], [zeros] and [hstack] belong to numpy, not to the
    notebook; they are written here after numpy's implementation
    ([numpy/core/function_base.py]). *)

Module np.
Section Numpy.
Context `{Float64Ops F}.

(** [arange(0, num)] as floats. *)
Definition arange (num : Z) : list F :=
  (λ k : nat, of_Z (Z.of_nat k)) <$> seq 0 (Z.to_nat num).

(** [y[-1] = v] on a non-empty array. *)
Definition set_last (y : list F) (v : F) : list F :=
  <[Nat.pred (length y) := v]> y.

(** [linspace(start, stop, num)] with [endpoint=True]:
<<
    if num < 0: raise ValueError
    div = num - 1
    y = arange(0, num); delta = stop - start
    if div > 0:
        step = delta / div
        if step == 0: y = y / div; y = y * delta
        else:         y = y * step
    else:
        y = y * delta
    y += start
    if num > 1: y[-1] = stop
>> *)
Definition linspace (start stop : F) (num : Z) : result (list F) :=
  if num <? 0 then Raise ValueError
  else
    let div := num - 1 in
    let delta := fsub stop start in
    let y := arange num in
    let y :=
      if 0 <? div then
        let step := fdiv delta (of_Z div) in
        if feqb step (of_Z 0)
        then (λ v, fmul (fdiv v (of_Z div)) delta) <$> y
        else (λ v, fmul v step) <$> y
      else (λ v, fmul v delta) <$> y in
    let y := (λ v, fadd v start) <$> y in
    Ok (if 1 <? num then set_last y stop else y).

(** [ones(n)] and [zeros(n)]; a negative dimension is a [ValueError]. *)
Definition ones (n : Z) : result (list F) :=
  if n <? 0 then Raise ValueError else Ok (replicate (Z.to_nat n) (of_Z 1)).

Definition zeros (n : Z) : result (list F) :=
  if n <? 0 then Raise ValueError else Ok (replicate (Z.to_nat n) (of_Z 0)).

(** [hstack] of one-dimensional arrays is their concatenation. *)
Definition hstack (parts : list (list F)) : list F := concat parts.

End Numpy.
End np.

(** ** The colour map builder (notebook cell 24) *)

(** [n1 = int(floor((nlines-1)/2.))]: the float quotient is exact for every
    list length, so this is floor division (which [Z.div] is, also at
    [nlines = 0], where it gives [-1]). *)
Definition n1 (nlines : Z) : Z := (nlines - 1) `div` 2.

(** [n2 = nlines - 1 - n1] *)
Definition n2 (nlines : Z) : Z := nlines - 1 - n1 nlines.

(** [list(zip(Red, Green, Blue))] *)
Definition zip3 {A} (r g b : list A) : list (A * A * A) :=
  zip (zip r g) b.

Section ColorMap.
Context `{Float64Ops F}.

Definition discrete_cmap_1 (clines : list F) : result (list (F * F * F)) :=
  let nlines := Z.of_nat (length clines) in
  let n1 := n1 nlines in
  let n2 := n2 nlines in
  g1 ← np.linspace (of_Z 1) (of_Z 1) n1;
  g2 ← np.linspace (of_Z 1) (of_Z 0) n2;
  let Green := np.hstack [g1; g2] in
  r1 ← np.linspace (of_Z 0) (dec 8 10) n1;
  r2 ← np.ones n2;
  let Red := np.hstack [r1; r2] in
  b1 ← np.linspace (of_Z 1) (dec 2 10) n1;
  b2 ← np.zeros n2;
  let Blue := np.hstack [b1; b2] in
  let colors := zip3 Red Green Blue in
  Ok colors.

End ColorMap.

(** *** The colours, position by position *)

Section ColorAt.
Context `{Float64Ops F}.

(** The element [k] of [linspace(start, stop, num)], read off numpy's code:
    [stop] itself in the last place when there is more than one sample, and
    otherwise [k * step + start] with [step = (stop - start) / (num - 1)],
    every operation being one of the arithmetic (a rounded one in
    binary64). *)
Definition linspace_at (start stop : F) (num : Z) (k : nat) : F :=
  if (1 <? num) && (Z.of_nat k =? num - 1) then stop
  else
    let div := num - 1 in
    let delta := fsub stop start in
    let v := of_Z (Z.of_nat k) in
    let y :=
      if 0 <? div then
        let step := fdiv delta (of_Z div) in
        if feqb step (of_Z 0) then fmul (fdiv v (of_Z div)) delta
        else fmul v step
      else fmul v delta in
    fadd y start.

(** The colour of interval [k]: on the [n1] low intervals the three low
    ramps, on the [n2] high intervals Red 1, the high Green ramp and
    Blue 0. *)
Definition interval_color (nlines : Z) (k : nat) : F * F * F :=
  if decide (Z.of_nat k < n1 nlines) then
    (linspace_at (of_Z 0) (dec 8 10) (n1 nlines) k,
     linspace_at (of_Z 1) (of_Z 1) (n1 nlines) k,
     linspace_at (of_Z 1) (dec 2 10) (n1 nlines) k)
  else
    (of_Z 1,
     linspace_at (of_Z 1) (of_Z 0) (n2 nlines) (k - Z.to_nat (n1 nlines)),
     of_Z 0).

End ColorAt.

(** *** The colours as the specification describes them *)

(** The specification's "linearly [a] → [b] across [n] intervals": the value
    on the [k]-th of [n] intervals, both end values included; a single
    interval takes the start value. *)
Definition ramp (a b : Qc) (n : Z) (k : nat) : Qc :=
  if n <=? 1 then a
  else (a + (b - a) * (Qc_of_Z (Z.of_nat k) / Qc_of_Z (n - 1)))%Qc.

(** The colour of interval [k] as the specification describes it. *)
Definition spec_color (nlines : Z) (k : nat) : Qc * Qc * Qc :=
  if decide (Z.of_nat k < n1 nlines) then
    (ramp (of_Z 0) (dec 8 10) (n1 nlines) k,
     of_Z 1,
     ramp (of_Z 1) (dec 2 10) (n1 nlines) k)
  else
    (of_Z 1,
     ramp (of_Z 1) (of_Z 0) (n2 nlines) (k - Z.to_nat (n1 nlines)),
     of_Z 0).

Definition unit_interval (x : Qc) : Prop := (0 ≤ x ∧ x ≤ 1)%Qc.

Definition rgb_in_unit (c : Qc * Qc * Qc) : Prop :=
  unit_interval c.1.1 ∧ unit_interval c.1.2 ∧ unit_interval c.2.

(** ** The masking cell (notebook cell 22)

    Python names are references to array objects.  The objects live in a
    heap; numpy's comparison and [ma.masked_where] (called with its default
    [copy=True]) are written after numpy: each builds its result in a new
    object and writes to no existing one. *)

Module ma.

(** A two-dimensional numpy array: its shape and its row-major data. *)
Record ndarray (A : Type) := Array { shape : nat * nat; flat : list A }.
Global Arguments Array {A} shape flat.
Global Arguments shape {A} _.
Global Arguments flat {A} _.

Definition loc := positive.

Section Masked.
Context `{Float64Ops F}.

Inductive obj : Type :=
  | NdArray (a : ndarray F)
  | BoolArray (b : ndarray bool)
  | MaskedArray (a : ndarray F) (mask : ndarray bool).

(** A Python computation: it may raise, and it may change the heap. *)
Definition py (A : Type) : Type := gmap loc obj → result A * gmap loc obj.

Definition py_ret {A} (a : A) : py A := λ σ, (Ok a, σ).

Definition py_bind {A B} (m : py A) (f : A → py B) : py B := λ σ,
  match m σ with
  | (Ok a, σ') => f a σ'
  | (Raise e, σ') => (Raise e, σ')
  end.

Definition raise {A} (e : exn) : py A := λ σ, (Raise e, σ).

(** A new object, at an address the heap does not use. *)
Definition alloc (o : obj) : py loc := λ σ,
  let l := fresh (dom σ) in (Ok l, <[l := o]> σ).

Definition deref (l : loc) : py obj := λ σ,
  match σ !! l with
  | Some o => (Ok o, σ)
  | None => (Raise TypeError, σ)
  end.

(** [a < c] for a float array [a] and a scalar [c]: a new boolean array of
    the same shape.  The notebook compares the two loaded arrays only;
    other operands are not modelled and end in [TypeError] here. *)
Definition less (a : loc) (c : F) : py loc :=
  py_bind (deref a) (λ o,
    match o with
    | NdArray d => alloc (BoolArray (Array (shape d) ((λ x, fltb x c) <$> flat d)))
    | _ => raise TypeError
    end).

(** [mask_or(m1, m2)] *)
Definition mask_or (m1 m2 : ndarray bool) : ndarray bool :=
  Array (shape m1) (zip_with orb (flat m1) (flat m2)).

(** [ma.masked_where(condition, a)]:
<<
      cond = make_mask(condition, shrink=False)
      a = np.array(a, copy=True, subok=True)
      if cond.shape != a.shape: raise IndexError
      if hasattr(a, '_mask'): cond = mask_or(cond, a._mask)
      result = a.view(cls); result.mask = cond
      return result
>>
    The result is a view of the copy made on the second line: a new object
    with the data of [a], sharing nothing with [a]. *)
Definition masked_where (condition a : loc) : py loc :=
  py_bind (deref condition) (λ c,
  py_bind (deref a) (λ o,
    match c, o with
    | BoolArray cond, NdArray d =>
        if decide (shape cond = shape d)
        then alloc (MaskedArray d cond)
        else raise IndexError
    | BoolArray cond, MaskedArray d m =>
        if decide (shape cond = shape d)
        then alloc (MaskedArray d (mask_or cond m))
        else raise IndexError
    | _, _ => raise TypeError
    end)).

(** The two masking statements of the cell:
<<
      hmax_dry = ma.masked_where(hmax < 0.001, hmax)
      hmax_onshore = ma.masked_where(topo < 0, hmax_dry)
>> *)
Definition masking_cell (hmax topo : loc) : py (loc * loc) :=
  py_bind (less hmax (dec 1 1000)) (λ dry_cells,
  py_bind (masked_where dry_cells hmax) (λ hmax_dry,
  py_bind (less topo (of_Z 0)) (λ water_cells,
  py_bind (masked_where water_cells hmax_dry) (λ hmax_onshore,
  py_ret (hmax_dry, hmax_onshore))))).

(** The masks the cell computes. *)
Definition dry_mask (h : ndarray F) : ndarray bool :=
  Array (shape h) ((λ x, fltb x (dec 1 1000)) <$> flat h).

Definition water_mask (t : ndarray F) : ndarray bool :=
  Array (shape t) ((λ x, fltb x (of_Z 0)) <$> flat t).

(** [MaskedArray.compressed()]: the data that are not masked, in order. *)
Definition compressed (d : ndarray F) (m : ndarray bool) : list F :=
  fst <$> filter (λ p, p.2 = false) (zip (flat d) (flat m)).

(** [np.maximum] on two floats, as numpy's loop has it,
    [(x >= y || isnan(x)) ? x : y]: the larger of the two, and a NaN as
    soon as one of them is a NaN. *)
Definition isnan (x : F) : bool := negb (feqb x x).

Definition fge (x y : F) : bool := fltb y x || feqb x y.

Definition maximum (x y : F) : F := if fge x y || isnan x then x else y.

(** [np.max] of the values [l]: [maximum] folded from the first on ([None]
    on no values). *)

Definition amax (l : list F) : option F :=
  match l with
  | [] => None
  | x :: l => Some (foldl maximum x l)
  end.

(** [a.max()] for an array or a masked array [a], after numpy: a
    zero-size array is a [ValueError]; a masked array gives the maximum
    of the values that are not masked (numpy fills the masked cells with
    the least float before taking [np.max]), or the constant [ma.masked]
    ([None] here) when every value is masked. *)
Definition array_max (a : loc) : py (option F) :=
  py_bind (deref a) (λ o,
    match o with
    | NdArray d =>
        match flat d with
        | [] => raise ValueError
        | _ => py_ret (amax (flat d))
        end
    | MaskedArray d m =>
        match flat d with
        | [] => raise ValueError
        | _ => py_ret (amax (compressed d m))
        end
    | BoolArray _ => raise TypeError (* not used by the notebook *)
    end).

(** The depth shown in the title of the last figures (cell 28),
    [hmax_onshore.max()], computed from the loaded arrays through the
    masking cell. *)
Definition maximum_depth (hmax topo : loc) : py (option F) :=
  py_bind (masking_cell hmax topo) (λ masked,
  array_max masked.2).

(** Whatever the outcome, no call of the cell changes or removes an object. *)
Definition preserving {A} (m : py A) : Prop := ∀ σ, σ ⊆ (m σ).2.

End Masked.

Global Arguments obj : clear implicits.

End ma.

(** ** The colour map builder as a call on the heap (notebook cell 24)

    [discrete_cmap_1(clines)] receives a reference to a sequence of breaks
    and returns a reference to a list of tuples.  The body reads [clines]
    through [len] only; [linspace], [ones], [zeros], [hstack] and
    [list(zip(...))] each build their result in a new object.  The
    statements are taken in the order of the source. *)

Module call.

Definition loc := positive.

Section Call.
Context `{Float64Ops F}.

Inductive obj : Type :=
  | Floats (items : list F)              (* a one-dimensional array of floats *)
  | Colors (colors : list (F * F * F)).  (* a list of RGB tuples *)

(** A Python computation: it may raise, and it may change the heap. *)
Definition py (A : Type) : Type := gmap loc obj → result A * gmap loc obj.

Definition py_ret {A} (a : A) : py A := λ σ, (Ok a, σ).

Definition py_bind {A B} (m : py A) (f : A → py B) : py B := λ σ,
  match m σ with
  | (Ok a, σ') => f a σ'
  | (Raise e, σ') => (Raise e, σ')
  end.

Definition raise {A} (e : exn) : py A := λ σ, (Raise e, σ).

Definition alloc (o : obj) : py loc := λ σ,
  let l := fresh (dom σ) in (Ok l, <[l := o]> σ).

Definition deref (l : loc) : py obj := λ σ,
  match σ !! l with
  | Some o => (Ok o, σ)
  | None => (Raise TypeError, σ)
  end.

(** [len(a)] *)
Definition len (a : loc) : py Z :=
  py_bind (deref a) (λ o,
    match o with
    | Floats items => py_ret (Z.of_nat (length items))
    | Colors colors => py_ret (Z.of_nat (length colors))
    end).

(** A numpy constructor returns its array as a new object; when it raises,
    nothing has been built. *)
Definition construct (r : result (list F)) : py loc :=
  match r with
  | Ok y => alloc (Floats y)
  | Raise e => raise e
  end.

Definition linspace (start stop : F) (num : Z) : py loc :=
  construct (np.linspace start stop num).

Definition ones (n : Z) : py loc := construct (np.ones n).

Definition zeros (n : Z) : py loc := construct (np.zeros n).

(** [hstack([a, b])] on two arrays; other operands do not occur in the
    builder and end in [TypeError] here. *)
Definition hstack (a b : loc) : py loc :=
  py_bind (deref a) (λ x,
  py_bind (deref b) (λ y,
    match x, y with
    | Floats x, Floats y => alloc (Floats (np.hstack [x; y]))
    | _, _ => raise TypeError
    end)).

(** [list(zip(r, g, b))] on three arrays. *)
Definition list_zip (r g b : loc) : py loc :=
  py_bind (deref r) (λ x,
  py_bind (deref g) (λ y,
  py_bind (deref b) (λ z,
    match x, y, z with
    | Floats x, Floats y, Floats z => alloc (Colors (zip3 x y z))
    | _, _, _ => raise TypeError
    end))).

(** The body of [discrete_cmap_1], statement by statement. *)
Definition discrete_cmap_1 (clines : loc) : py loc :=
  py_bind (len clines) (λ nlines,
  let n1 := n1 nlines in
  let n2 := n2 nlines in
  py_bind (linspace (of_Z 1) (of_Z 1) n1) (λ g1,
  py_bind (linspace (of_Z 1) (of_Z 0) n2) (λ g2,
  py_bind (hstack g1 g2) (λ Green,
  py_bind (linspace (of_Z 0) (dec 8 10) n1) (λ r1,
  py_bind (ones n2) (λ r2,
  py_bind (hstack r1 r2) (λ Red,
  py_bind (linspace (of_Z 1) (dec 2 10) n1) (λ b1,
  py_bind (zeros n2) (λ b2,
  py_bind (hstack b1 b2) (λ Blue,
  py_bind (list_zip Red Green Blue) (λ colors,
  py_ret colors))))))))))).

(** What the caller gets out of a call: the colours held by the returned
    reference, or the exception. *)
Definition outcome (r : result loc) (σ : gmap loc obj)
    : result (list (F * F * F)) :=
  match r with
  | Ok l =>
      match σ !! l with
      | Some (Colors colors) => Ok colors
      | _ => Raise TypeError
      end
  | Raise e => Raise e
  end.

End Call.

Global Arguments obj : clear implicits.

End call.

(** ** The raster loader

    The notebook imports [read_asc_file] from [data_tools.py] and uses the
    ['values'], ['X'] and ['Y'] entries of what it returns.  [data_tools.py]
    is not among the sources, so the loader below follows the specification
    (its [load_raster]). *)

Module data_tools.

(** Modelled from the spec: the RasterHeader of the data model (the six
    header values); [data_tools.py] is missing. *)
Record RasterHeader (F : Type) := Header {
  ncols : Z;
  nrows : Z;
  xll_corner : F;
  yll_corner : F;
  cell_size : F;
  nodata_value : F;
}.
Global Arguments Header {F}.
Global Arguments ncols {F} _.
Global Arguments nrows {F} _.
Global Arguments xll_corner {F} _.
Global Arguments yll_corner {F} _.
Global Arguments cell_size {F} _.
Global Arguments nodata_value {F} _.

(** Modelled from the spec: the Grid of the data model (the header, the
    values and the two coordinate vectors); [data_tools.py] is missing. *)
Record Grid (F : Type) := MkGrid {
  header : RasterHeader F;
  values : list (list F);
  X : list F;
  Y : list F;
}.
Global Arguments MkGrid {F}.
Global Arguments header {F} _.
Global Arguments values {F} _.
Global Arguments X {F} _.
Global Arguments Y {F} _.

(** Modelled from the spec: header keys are matched case-insensitively
    ("case-insensitive keys"), here by lowering them; [data_tools.py] is
    missing. *)
Definition lower_ascii (c : Ascii.ascii) : Ascii.ascii :=
  let n := Ascii.nat_of_ascii c in
  if (65 <=? n)%nat && (n <=? 90)%nat then Ascii.ascii_of_nat (n + 32) else c.

Fixpoint lower (s : string) : string :=
  match s with
  | String.EmptyString => String.EmptyString
  | String.String c s => String.String (lower_ascii c) (lower s)
  end.

(** Modelled from the spec: the six recognised keys ([data_tools.py] is
    missing). *)
Definition header_keys : list string :=
  ["ncols"; "nrows"; "xllcorner"; "yllcorner"; "cellsize"; "nodata_value"]%string.
Global Arguments header_keys : simpl never.

(** Modelled from the spec: whether all six recognised keys have been seen
    ([data_tools.py] is missing). *)
Definition all_seen (seen : gmap string string) : bool :=
  bool_decide (list_to_set header_keys ⊆ dom seen).

(** Modelled from the spec: the header scan of [load_raster] ("read header
    lines first, stopping once all six recognized keys are seen; remaining
    lines are treated as the data block"); the code ([data_tools.py]) is
    missing.  A line that is not a recognised [key value] pair while keys
    are still missing is a [FormatError] (a required key is missing). *)
Fixpoint read_header (seen : gmap string string) (lines : list string)
    : result (gmap string string * list string) :=
  if all_seen seen then Ok (seen, lines)
  else
    match lines with
    | [] => Raise FormatError
    | line :: rest =>
        match String.words line with
        | [k; v] =>
            if bool_decide (lower k ∈ header_keys)
            then read_header (<[lower k := v]> seen) rest
            else Raise FormatError
        | _ => Raise FormatError
        end
    end.


(** Modelled from the spec: a header value, present and numeric, or a
    [FormatError] ("a required header key is missing, a header value is
    non-numeric"); [data_tools.py] is missing. *)
Definition field {A} (parse : string → option A)
    (seen : gmap string string) (key : string) : result A :=
  match seen !! key with
  | Some v =>
      match parse v with
      | Some a => Ok a
      | None => Raise FormatError
      end
  | None => Raise FormatError
  end.

Section Loader.
Context `{Float64Ops F}.

(** The conversion of a token to a number is the Python runtime's. *)
Variable parse_int : string → option Z.
Variable parse_float : string → option F.

(** Modelled from the spec: the header record built from the six values
    ([data_tools.py] is missing). *)
Definition make_header (seen : gmap string string) : result (RasterHeader F) :=
  nc ← field parse_int seen "ncols";
  nr ← field parse_int seen "nrows";
  xll ← field parse_float seen "xllcorner";
  yll ← field parse_float seen "yllcorner";
  cs ← field parse_float seen "cellsize";
  nodata ← field parse_float seen "nodata_value";
  Ok (Header nc nr xll yll cs nodata).

(** Modelled from the spec: a data token "parsed as floating point"
    ([data_tools.py] is missing). *)
Definition parse_token (tok : string) : result F :=
  match parse_float tok with
  | Some x => Ok x
  | None => Raise FormatError
  end.

(** Modelled from the spec: one data line ("split on whitespace and parsed
    as floating point; a row with a different token count than ncols is a
    fatal format error"); [data_tools.py] is missing. *)
Definition parse_row (ncols : Z) (line : string) : result (list F) :=
  let tokens := String.words line in
  if bool_decide (Z.of_nat (length tokens) = ncols)
  then mapM parse_token tokens
  else Raise FormatError.

(** Modelled from the spec: the cell-centre coordinates
    [X[j] = xll_corner + (j + 0.5) * cell_size] and
    [Y[i] = yll_corner + (nrows - 1 - i + 0.5) * cell_size];
    [data_tools.py] is missing. *)
Definition x_coordinates (h : RasterHeader F) : list F :=
  (λ j, fadd (xll_corner h) (fmul (fadd (of_Z j) (dec 5 10)) (cell_size h)))
    <$> seqZ 0 (ncols h).

Definition y_coordinates (h : RasterHeader F) : list F :=
  (λ i, fadd (yll_corner h)
          (fmul (fadd (of_Z (nrows h - 1 - i)) (dec 5 10)) (cell_size h)))
    <$> seqZ 0 (nrows h).

(** Modelled from the spec: the number of cells that hold the no-data
    value, which [validate] reports ([data_tools.py] is missing). *)
Definition count_nodata (h : RasterHeader F) (rows : list (list F)) : nat :=
  length (filter (λ x, feqb x (nodata_value h) = true) (concat rows)).

(** Modelled from the spec: [load_raster(path, validate)], the
    specification's name for [read_asc_file] of [data_tools.py], which is
    missing.  The file system maps a path to the lines of the file; the
    result is the grid and, with [validate], the reported no-data count. *)
Definition load_raster (fs : string → option (list string))
    (path : string) (validate : bool) : result (Grid F * option nat) :=
  match fs path with
  | None => Raise IOError
  | Some lines =>
      '(seen, data) ← read_header ∅ lines;
      h ← make_header seen;
      rows ← mapM (parse_row (ncols h)) data;
      if bool_decide (Z.of_nat (length rows) = nrows h)
      then
        let grid := MkGrid h rows (x_coordinates h) (y_coordinates h) in
        Ok (grid, if validate then Some (count_nodata h rows) else None)
      else Raise FormatError
  end.

(** The file format of the specification: six header lines, one per key, in
    any order and any letter case, positive [ncols], [nrows] and [cellsize],
    then [nrows] lines of [ncols] numbers. *)
Definition header_line (line : string) (kv : string * string) : Prop :=
  ∃ k, String.words line = [k; kv.2] ∧ lower k = kv.1.

Definition header_values (kvs : list (string * string)) (h : RasterHeader F) : Prop :=
  ∃ v1 v2 v3 v4 v5 v6 : string,
    kvs ≡ₚ [("ncols", v1); ("nrows", v2); ("xllcorner", v3);
            ("yllcorner", v4); ("cellsize", v5); ("nodata_value", v6)]%string ∧
    parse_int v1 = Some (ncols h) ∧
    parse_int v2 = Some (nrows h) ∧
    parse_float v3 = Some (xll_corner h) ∧
    parse_float v4 = Some (yll_corner h) ∧
    parse_float v5 = Some (cell_size h) ∧
    parse_float v6 = Some (nodata_value h).

Definition data_line (ncols : Z) (line : string) (row : list F) : Prop :=
  Forall2 (λ tok x, parse_float tok = Some x) (String.words line) row ∧
  Z.of_nat (length row) = ncols.

Definition well_formed_file (lines : list string)
    (h : RasterHeader F) (rows : list (list F)) : Prop :=
  ∃ hlines dlines kvs,
    lines = hlines ++ dlines ∧
    Forall2 header_line hlines kvs ∧
    header_values kvs h ∧
    0 < ncols h ∧ 0 < nrows h ∧
    fltb (of_Z 0) (cell_size h) = true ∧
    Z.of_nat (length rows) = nrows h ∧
    Forall2 (data_line (ncols h)) dlines rows.

End Loader.

Definition strictly_increasing `{Float64Ops F} (l : list F) : Prop :=
  ∀ i j x y, (i < j)%nat → l !! i = Some x → l !! j = Some y →
             fltb x y = true.

Definition strictly_decreasing `{Float64Ops F} (l : list F) : Prop :=
  ∀ i j x y, (i < j)%nat → l !! i = Some x → l !! j = Some y →
             fltb y x = true.

End data_tools.

(** ** Concrete inputs used in the examples *)

Module examples.
Import data_tools.

(** A reader of decimal integers, standing for Python's [int] and [float]
    on the tokens of the example file. *)
Fixpoint digits (acc : Z) (s : string) : option Z :=
  match s with
  | String.EmptyString => Some acc
  | String.String c s =>
      match Ascii.is_nat c with
      | Some d => digits (10 * acc + Z.of_nat d) s
      | None => None
      end
  end.

Definition read_int (s : string) : option Z :=
  match s with
  | String.EmptyString => None
  | String.String c s' =>
      if Ascii.eqb c (Ascii.ascii_of_nat 45) (* a minus sign *)
      then match s' with
           | String.EmptyString => None
           | _ => Z.opp <$> digits 0 s'
           end
      else digits 0 s
  end.

Definition read_number (s : string) : option Qc := Qc_of_Z <$> read_int s.

(** A 2 x 3 raster; the header lines are out of order and in mixed case. *)
Definition raster_lines : list string :=
  ["nrows 2"; "NCOLS 3"; "xllcorner -124"; "yllcorner 41"; "cellsize 1";
   "NODATA_value -9999"; "0 1 2"; "3 -9999 5"]%string.

Definition raster_path : string := "../geoclaw_output/hmax_CC.asc".

Definition raster_fs (path : string) : option (list string) :=
  if decide (path = raster_path) then Some raster_lines else None.

Definition raster_header : RasterHeader Qc :=
  Header 3 2 (Qc_of_Z (-124)) (Qc_of_Z 41) (Qc_of_Z 1) (Qc_of_Z (-9999)).

Definition raster_rows : list (list Qc) :=
  [[Qc_of_Z 0; Qc_of_Z 1; Qc_of_Z 2]; [Qc_of_Z 3; Qc_of_Z (-9999); Qc_of_Z 5]].

(** A heap that holds a loaded [hmax] (at 1) and [topo] (at 2). *)
Definition hmax_array : ma.ndarray Qc :=
  ma.Array (1%nat, 2%nat) [dec 5 10000; Qc_of_Z 2].

Definition topo_array : ma.ndarray Qc :=
  ma.Array (1%nat, 2%nat) [Qc_of_Z 1; Qc_of_Z (-1)].

Definition loaded_heap : gmap ma.loc (ma.obj Qc) :=
  <[1%positive := ma.NdArray hmax_array]>
    (<[2%positive := ma.NdArray topo_array]> ∅).

(** The contour levels of the notebook, [np.arange(0, 4.5, 0.5)]. *)
Definition depth_contour_levels : list float :=
  [0; 0.5; 1; 1.5; 2; 2.5; 3; 3.5; 4]%float.

(** Checks on binary64 colours: every channel in [0, 1], and each colour
    no less red and no more green or blue than the one before. *)
Definition float_in_unit (x : float) : bool :=
  PrimFloat.leb 0 x && PrimFloat.leb x 1.

Definition color_in_unit (c : float * float * float) : bool :=
  float_in_unit c.1.1 && float_in_unit c.1.2 && float_in_unit c.2.

Definition color_step (c c' : float * float * float) : bool :=
  PrimFloat.leb c.1.1 c'.1.1 && PrimFloat.leb c'.1.2 c.1.2
  && PrimFloat.leb c'.2 c.2.

Fixpoint colors_monotone (l : list (float * float * float)) : bool :=
  match l with
  | c :: (c' :: _) as rest => color_step c c' && colors_monotone rest
  | _ => true
  end.

(** Each colour differs from the one before: it is more red or less
    green. *)
Definition color_moves (c c' : float * float * float) : bool :=
  PrimFloat.ltb c.1.1 c'.1.1 || PrimFloat.ltb c'.1.2 c.1.2.

(** The longest breaks sequence the evaluations in binary64 cover: 257
    breaks, that is 256 colours. *)
Definition max_breaks : nat := 257.

(** The colours for [N] breaks (the builder reads the number of breaks
    only). *)
Definition colors_of_length (N : nat) : result (list (float * float * float)) :=
  discrete_cmap_1 (H := binary64_ops) (replicate N 0%float).

(** The first colour is turquoise, Green is 1 on every low interval, and
    the first high interval is yellow. *)
Definition ends_check (N : nat) (cs : list (float * float * float)) : bool :=
  bool_decide (cs !! 0%nat = Some (0, 1, 1)%float) &&
  forallb (λ c, bool_decide (c.1.2 = 1%float)) (take (Z.to_nat (n1 (Z.of_nat N))) cs) &&
  bool_decide (cs !! Z.to_nat (n1 (Z.of_nat N)) = Some (1, 1, 0)%float).

Definition all_checks (N : nat) (cs : list (float * float * float)) : bool :=
  forallb color_in_unit cs && colors_monotone cs && bool_decide (NoDup cs)
  && ((N <? 3)%nat || ends_check N cs).

(** A check carried out for every number of breaks from 2 to
    [max_breaks]. *)
Definition all_lengths
    (check : nat → list (float * float * float) → bool) : bool :=
  forallb (λ N, match colors_of_length N with
                | Ok cs => check N cs
                | Raise _ => false
                end)
          (seq 2 (max_breaks - 1)).







(** Loaded arrays in binary64: three cells, the first dry, the second
    under water. *)
Definition depth_array : ma.ndarray float :=
  ma.Array (1%nat, 3%nat) [0x1p-11; 2; 3.5]%float.

Definition land_array : ma.ndarray float :=
  ma.Array (1%nat, 3%nat) [1; -1; 2]%float.

Definition float_heap : gmap ma.loc (ma.obj float) :=
  <[1%positive := ma.NdArray depth_array]>
    (<[2%positive := ma.NdArray land_array]> ∅).

(** Two heaps that hold the contour levels of the notebook, at different
    addresses and next to different objects. *)
Definition breaks_heap : gmap call.loc (call.obj float) :=
  <[1%positive := call.Floats depth_contour_levels]> ∅.

Definition other_heap : gmap call.loc (call.obj float) :=
  <[7%positive := call.Floats depth_contour_levels]>
    (<[1%positive := call.Colors [(1, 0, 0)%float]]> ∅).

End examples.

(** ** Results about the numpy functions, for any arithmetic *)

Section NumpyFacts.
Context `{Float64Ops F}.
Implicit Types (start stop : F) (num : Z).

Lemma arange_length num : length (np.arange (F := F) num) = Z.to_nat num.
Proof. unfold np.arange. by rewrite length_fmap, length_seq. Qed.

Lemma set_last_length (y : list F) v : length (np.set_last y v) = length y.
Proof. apply length_insert. Qed.

Lemma linspace_negative start stop num :
  num < 0 → np.linspace start stop num = Raise ValueError.
Proof.
  intros Hn. unfold np.linspace.
  destruct (Z.ltb_spec num 0); [done | lia].
Qed.

Lemma linspace_length start stop num :
  0 ≤ num →
  ∃ y, np.linspace start stop num = Ok y ∧ length y = Z.to_nat num.
Proof.
  intros Hn. unfold np.linspace.
  destruct (Z.ltb_spec num 0); [lia |].
  eexists; split; [reflexivity |].
  destruct (1 <? num); rewrite ?set_last_length, length_fmap;
    destruct (0 <? num - 1); [destruct (feqb _ _) | | destruct (feqb _ _) |];
    by rewrite length_fmap, arange_length.
Qed.

Lemma arange_lookup num (k : nat) :
  (k < Z.to_nat num)%nat →
  np.arange (F := F) num !! k = Some (of_Z (Z.of_nat k)).
Proof.
  intros Hk. unfold np.arange. by rewrite list_lookup_fmap, lookup_seq_lt.
Qed.

(** Every element of [linspace] is the one [linspace_at] names. *)
Lemma linspace_lookup start stop num y (k : nat) :
  np.linspace start stop num = Ok y → (k < length y)%nat →
  y !! k = Some (linspace_at start stop num k).
Proof.
  intros Hy Hk.
  destruct (Z.ltb_spec num 0) as [Hneg | Hn0];
    [by rewrite linspace_negative in Hy |].
  destruct (linspace_length start stop num Hn0) as (y' & Hy' & Hlen).
  rewrite Hy in Hy'. injection Hy' as <-. rewrite Hlen in Hk.
  unfold np.linspace in Hy. destruct (Z.ltb_spec num 0); [lia |].
  injection Hy as <-. unfold linspace_at.
  destruct (Z.ltb_spec 1 num) as [Hn | Hn]; cbn [andb].
  - rewrite set_last_length in Hlen. unfold np.set_last. rewrite Hlen.
    destruct (Z.eqb_spec (Z.of_nat k) (num - 1)) as [Hlast | Hlast].
    + replace (Nat.pred (Z.to_nat num)) with k by lia.
      apply list_lookup_insert_eq. lia.
    + rewrite list_lookup_insert_ne by lia.
      rewrite list_lookup_fmap.
      destruct (0 <? num - 1); [destruct (feqb _ _) |];
        by rewrite list_lookup_fmap, arange_lookup.
  - rewrite list_lookup_fmap.
    destruct (0 <? num - 1); [destruct (feqb _ _) |];
      by rewrite list_lookup_fmap, arange_lookup.
Qed.

Lemma linspace_raises start stop num e :
  np.linspace start stop num = Raise e → e = ValueError ∧ num < 0.
Proof.
  unfold np.linspace. destruct (Z.ltb_spec num 0); [| done].
  intros [= <-]. done.
Qed.

Lemma ones_length n :
  0 ≤ n → ∃ y, np.ones (F := F) n = Ok y ∧ length y = Z.to_nat n.
Proof.
  intros Hn. unfold np.ones. destruct (Z.ltb_spec n 0); [lia |].
  eexists; split; [done | apply length_replicate].
Qed.

Lemma zeros_length n :
  0 ≤ n → ∃ y, np.zeros (F := F) n = Ok y ∧ length y = Z.to_nat n.
Proof.
  intros Hn. unfold np.zeros. destruct (Z.ltb_spec n 0); [lia |].
  eexists; split; [done | apply length_replicate].
Qed.

Lemma hstack_pair (a b : list F) : np.hstack [a; b] = a ++ b.
Proof. unfold np.hstack. simpl. by rewrite app_nil_r. Qed.

End NumpyFacts.

(** ** The split of the intervals *)

Lemma n1_n2_sum nlines : n1 nlines + n2 nlines = nlines - 1.
Proof. unfold n2. lia. Qed.

Lemma n1_nonneg nlines : 1 ≤ nlines → 0 ≤ n1 nlines.
Proof. unfold n1. intros. apply Z.div_pos; lia. Qed.

Lemma n1_le_n2 nlines : n1 nlines ≤ n2 nlines ≤ n1 nlines + 1.
Proof.
  unfold n2, n1.
  pose proof (Z.div_mod (nlines - 1) 2 ltac:(lia)).
  pose proof (Z.mod_pos_bound (nlines - 1) 2 ltac:(lia)). lia.
Qed.

Lemma n2_nonneg nlines : 0 ≤ nlines → 0 ≤ n2 nlines.
Proof.
  intros Hn. destruct (decide (nlines = 0)) as [-> | ?]; [done |].
  pose proof (n1_nonneg nlines ltac:(lia)). pose proof (n1_le_n2 nlines). lia.
Qed.

Lemma length_zip3 {A} (r g b : list A) n :
  length r = n → length g = n → length b = n → length (zip3 r g b) = n.
Proof. intros. unfold zip3. rewrite !length_zip_with. lia. Qed.

Lemma lookup_zip3 {A} (r g b : list A) (k : nat) x y z :
  r !! k = Some x → g !! k = Some y → b !! k = Some z →
  zip3 r g b !! k = Some (x, y, z).
Proof.
  intros Hr Hg Hb. unfold zip3.
  rewrite !lookup_zip_with, Hr, Hg, Hb. done.
Qed.

(** ** The shape of the colour map, for any arithmetic *)

Section ColorMapShape.
Context `{Float64Ops F}.
Implicit Types (clines : list F).

(** The three channel arrays of [discrete_cmap_1], once [n1] and [n2] are
    non-negative. *)
Lemma discrete_cmap_1_channels clines :
  clines ≠ [] →
  ∃ g1 g2 r1 r2 b1 b2,
    let nlines := Z.of_nat (length clines) in
    np.linspace (of_Z 1) (of_Z 1) (n1 nlines) = Ok g1 ∧
    np.linspace (of_Z 1) (of_Z 0) (n2 nlines) = Ok g2 ∧
    np.linspace (of_Z 0) (dec 8 10) (n1 nlines) = Ok r1 ∧
    np.ones (n2 nlines) = Ok r2 ∧
    np.linspace (of_Z 1) (dec 2 10) (n1 nlines) = Ok b1 ∧
    np.zeros (n2 nlines) = Ok b2 ∧
    discrete_cmap_1 clines = Ok (zip3 (r1 ++ r2) (g1 ++ g2) (b1 ++ b2)) ∧
    length g1 = Z.to_nat (n1 nlines) ∧ length r1 = Z.to_nat (n1 nlines) ∧
    length b1 = Z.to_nat (n1 nlines) ∧
    length g2 = Z.to_nat (n2 nlines) ∧ length r2 = Z.to_nat (n2 nlines) ∧
    length b2 = Z.to_nat (n2 nlines).
Proof.
  intros Hne. simpl.
  assert (1 ≤ Z.of_nat (length clines)) as Hlen
    by (destruct clines; [done | simpl; lia]).
  pose proof (n1_nonneg _ Hlen) as Hn1.
  pose proof (n2_nonneg (Z.of_nat (length clines)) ltac:(lia)) as Hn2.
  destruct (linspace_length (of_Z 1) (of_Z 1) _ Hn1) as (g1 & Eg1 & Lg1).
  destruct (linspace_length (of_Z 1) (of_Z 0) _ Hn2) as (g2 & Eg2 & Lg2).
  destruct (linspace_length (of_Z 0) (dec 8 10) _ Hn1) as (r1 & Er1 & Lr1).
  destruct (ones_length (F := F) _ Hn2) as (r2 & Er2 & Lr2).
  destruct (linspace_length (of_Z 1) (dec 2 10) _ Hn1) as (b1 & Eb1 & Lb1).
  destruct (zeros_length (F := F) _ Hn2) as (b2 & Eb2 & Lb2).
  exists g1, g2, r1, r2, b1, b2.
  repeat split; try done.
  unfold discrete_cmap_1. rewrite Eg1, Eg2, Er1, Er2, Eb1, Eb2.
  cbn [mbind result_bind]. by rewrite !hstack_pair.
Qed.

Lemma discrete_cmap_1_empty : discrete_cmap_1 (F := F) [] = Raise ValueError.
Proof. reflexivity. Qed.

Lemma discrete_cmap_1_length clines :
  clines ≠ [] →
  ∃ colors, discrete_cmap_1 clines = Ok colors ∧
            length colors = Nat.pred (length clines).
Proof.
  intros Hne.
  destruct (discrete_cmap_1_channels clines Hne)
    as (g1 & g2 & r1 & r2 & b1 & b2 & _ & _ & _ & _ & _ & _ & E & L).
  simpl in L. destruct L as (Lg1 & Lr1 & Lb1 & Lg2 & Lr2 & Lb2).
  eexists; split; [exact E |].
  pose proof (n1_n2_sum (Z.of_nat (length clines))).
  assert (1 ≤ Z.of_nat (length clines))
    by (destruct clines; [done | simpl; lia]).
  pose proof (n1_nonneg (Z.of_nat (length clines)) ltac:(lia)).
  pose proof (n2_nonneg (Z.of_nat (length clines)) ltac:(lia)).
  apply length_zip3; rewrite length_app; lia.
Qed.

(** The builder reads the number of breaks and nothing else. *)
Lemma discrete_cmap_1_by_length clines :
  discrete_cmap_1 clines
  = discrete_cmap_1 (replicate (length clines) (of_Z 0)).
Proof. unfold discrete_cmap_1. by rewrite length_replicate. Qed.

(** Every colour of the result, named by its position. *)
Lemma discrete_cmap_1_at clines :
  clines ≠ [] →
  ∃ colors, discrete_cmap_1 clines = Ok colors ∧
    length colors = Nat.pred (length clines) ∧
    ∀ k : nat, (k < Nat.pred (length clines))%nat →
         colors !! k = Some (interval_color (Z.of_nat (length clines)) k).
Proof.
  intros Hne.
  destruct (discrete_cmap_1_channels clines Hne)
    as (g1 & g2 & r1 & r2 & b1 & b2 & Eg1 & Eg2 & Er1 & Er2 & Eb1 & Eb2 & E & L).
  destruct (discrete_cmap_1_length clines Hne) as (colors & E' & Hlen).
  simpl in *. destruct L as (Lg1 & Lr1 & Lb1 & Lg2 & Lr2 & Lb2).
  exists colors. split; [done |]. split; [done |].
  rewrite E in E'. injection E' as <-.
  set (N := Z.of_nat (length clines)) in *.
  assert (1 ≤ N) by (subst N; destruct clines; [done | simpl; lia]).
  pose proof (n1_nonneg N ltac:(lia)) as Hn1.
  pose proof (n2_nonneg N ltac:(lia)) as Hn2.
  pose proof (n1_n2_sum N) as Hsum.
  unfold np.ones in Er2. destruct (Z.ltb_spec (n2 N) 0); [lia |].
  injection Er2 as <-.
  unfold np.zeros in Eb2. destruct (Z.ltb_spec (n2 N) 0); [lia |].
  injection Eb2 as <-.
  intros k Hk. unfold interval_color. destruct (decide _) as [Hlow | Hhigh].
  - apply lookup_zip3; rewrite lookup_app_l by lia;
      (apply linspace_lookup; [done | lia]).
  - apply lookup_zip3; rewrite lookup_app_r by lia.
    + rewrite Lr1. apply lookup_replicate_2. lia.
    + rewrite Lg1. apply linspace_lookup; [done | lia].
    + rewrite Lb1. apply lookup_replicate_2. lia.
Qed.

End ColorMapShape.

(** ** Channel values in exact arithmetic *)

Section Ramp.
Local Open Scope Qc_scope.
Implicit Types (a b c t : Qc) (n d : Z) (k : nat).

Lemma Qc_of_Z_pos d : (0 < d)%Z → 0 < Qc_of_Z d.
Proof. intros. rewrite <- Z2Qc_inj_0. by apply (Z2Qc_inj_lt 0 d). Qed.

Lemma Qc_of_Z_nonzero d : (0 < d)%Z → Qc_of_Z d ≠ 0.
Proof. intros Hd E. apply Qc_of_Z_pos in Hd. rewrite E in Hd.
       by apply Qclt_not_eq in Hd. Qed.

Lemma frac_mono (i j d : Z) :
  (0 < d)%Z → (i ≤ j)%Z → Qc_of_Z i / Qc_of_Z d ≤ Qc_of_Z j / Qc_of_Z d.
Proof.
  intros Hd Hij. unfold Qcdiv. apply Qcmult_le_mono_nonneg_r.
  - apply Qclt_le_weak, Qcinv_pos, Qc_of_Z_pos, Hd.
  - by apply (Z2Qc_inj_le i j).
Qed.

Lemma frac_zero d : Qc_of_Z 0 / Qc_of_Z d = 0.
Proof. rewrite Z2Qc_inj_0. unfold Qcdiv. apply Qcmult_0_l. Qed.

Lemma frac_one d : (0 < d)%Z → Qc_of_Z d / Qc_of_Z d = 1.
Proof. intros. unfold Qcdiv. by apply Qcmult_inv_r, Qc_of_Z_nonzero. Qed.

Lemma affine_mono a c t t' : 0 ≤ c → t ≤ t' → a + c * t ≤ a + c * t'.
Proof.
  intros Hc Ht. apply Qcplus_le_mono_l. by apply Qcmult_le_mono_nonneg_l.
Qed.

Lemma affine_anti a c t t' : c ≤ 0 → t ≤ t' → a + c * t' ≤ a + c * t.
Proof.
  intros Hc Ht. apply (proj2 (Qcle_minus_iff (a + c * t') (a + c * t))).
  replace (a + c * t + - (a + c * t')) with ((- c) * (t' + - t)) by ring.
  apply Qcmult_nonneg_nonneg.
  - apply (proj1 (Qcle_minus_iff c 0)) in Hc. by rewrite Qcplus_0_l in Hc.
  - by apply (proj1 (Qcle_minus_iff t t')).
Qed.

(** The ramp starts at [a], ends at [b] and moves by equal steps. *)
Lemma ramp_first a b n : ramp a b n 0 = a.
Proof.
  unfold ramp. destruct (n <=? 1)%Z; [done |].
  change (Z.of_nat 0) with 0%Z. rewrite frac_zero. ring.
Qed.

Lemma ramp_last a b n : (2 ≤ n)%Z → ramp a b n (Z.to_nat (n - 1)) = b.
Proof.
  intros Hn. unfold ramp. destruct (Z.leb_spec n 1); [lia |].
  rewrite Z2Nat.id by lia. rewrite frac_one by lia. ring.
Qed.

Lemma ramp_step a b n k :
  (2 ≤ n)%Z →
  ramp a b n (S k) - ramp a b n k = (b - a) / Qc_of_Z (n - 1).
Proof.
  intros Hn. unfold ramp. destruct (Z.leb_spec n 1); [lia |].
  rewrite Nat2Z.inj_succ, <- Z.add_1_r, Z2Qc_inj_add, Z2Qc_inj_1.
  field. apply Qc_of_Z_nonzero. lia.
Qed.

Lemma ramp_single a b n k : (n ≤ 1)%Z → ramp a b n k = a.
Proof. intros. unfold ramp. by destruct (Z.leb_spec n 1); [| lia]. Qed.

Lemma ramp_up_mono a b n i j :
  a ≤ b → (i ≤ j)%nat → ramp a b n i ≤ ramp a b n j.
Proof.
  intros Hab Hij. unfold ramp. destruct (Z.leb_spec n 1); [apply Qcle_refl |].
  apply affine_mono; [| apply frac_mono; lia].
  by apply (proj1 (Qcle_minus_iff a b)).
Qed.

Lemma ramp_down_mono a b n i j :
  b ≤ a → (i ≤ j)%nat → ramp a b n j ≤ ramp a b n i.
Proof.
  intros Hab Hij. unfold ramp. destruct (Z.leb_spec n 1); [apply Qcle_refl |].
  apply affine_anti; [| apply frac_mono; lia].
  apply (proj2 (Qcle_minus_iff (b - a) 0)). rewrite Qcplus_0_l.
  replace (- (b - a)) with (a + - b) by ring.
  by apply (proj1 (Qcle_minus_iff b a)).
Qed.

Lemma ramp_up_bounds a b n k :
  a ≤ b → (Z.of_nat k < n)%Z → a ≤ ramp a b n k ∧ ramp a b n k ≤ b.
Proof.
  intros Hab Hk. destruct (Z.le_gt_cases n 1) as [Hn | Hn].
  - rewrite ramp_single by done. split; [apply Qcle_refl | done].
  - split.
    + rewrite <- (ramp_first a b n) at 1. apply ramp_up_mono; [done | lia].
    + rewrite <- (ramp_last a b n) at 2 by lia. apply ramp_up_mono; [done | lia].
Qed.

Lemma ramp_down_bounds a b n k :
  b ≤ a → (Z.of_nat k < n)%Z → b ≤ ramp a b n k ∧ ramp a b n k ≤ a.
Proof.
  intros Hab Hk. destruct (Z.le_gt_cases n 1) as [Hn | Hn].
  - rewrite ramp_single by done. split; [done | apply Qcle_refl].
  - split.
    + rewrite <- (ramp_last a b n) at 1 by lia. apply ramp_down_mono; [done | lia].
    + rewrite <- (ramp_first a b n) at 2. apply ramp_down_mono; [done | lia].
Qed.

(** numpy's [linspace] computes the ramp. *)
Lemma linspace_ramp a b n y k :
  np.linspace (F := Qc) a b n = Ok y →
  (k < length y)%nat →
  y !! k = Some (ramp a b n k).
Proof.
  unfold np.linspace. destruct (Z.ltb_spec n 0) as [| Hn0]; [done |].
  intros [= <-]. cbn [fsub fdiv fmul fadd feqb of_Z Qc_ops].
  destruct (Z.ltb_spec 1 n) as [Hn | Hn].
  - destruct (Z.ltb_spec 0 (n - 1)); [| lia].
    rewrite set_last_length. intros Hk.
    assert (Qc_of_Z (n - 1) ≠ 0) as Hd by (apply Qc_of_Z_nonzero; lia).
    unfold np.set_last.
    match goal with |- <[_ := _]> ?l !! _ = _ => set (y := l) in * end.
    assert (length y = Z.to_nat n) as Hlen.
    { subst y. rewrite length_fmap.
      destruct (bool_decide _); by rewrite length_fmap, arange_length. }
    destruct (decide (k = Nat.pred (length y))) as [-> | Hne].
    + rewrite list_lookup_insert_eq by lia. f_equal.
      rewrite Hlen. replace (Nat.pred (Z.to_nat n)) with (Z.to_nat (n - 1)) by lia.
      by rewrite ramp_last by lia.
    + rewrite list_lookup_insert_ne by done. subst y.
      rewrite list_lookup_fmap.
      assert (np.arange (F := Qc) n !! k = Some (Qc_of_Z (Z.of_nat k))) as Hak.
      { unfold np.arange. rewrite list_lookup_fmap, lookup_seq_lt by lia. done. }
      unfold ramp. destruct (Z.leb_spec n 1); [lia |].
      destruct (bool_decide _); rewrite list_lookup_fmap, Hak; simpl; f_equal;
        field; done.
  - destruct (Z.ltb_spec 0 (n - 1)); [lia |].
    rewrite !length_fmap, arange_length. intros Hk.
    assert (n = 1%Z) as -> by lia. assert (k = 0%nat) as -> by lia.
    simpl. f_equal. rewrite ramp_first.
    change (Z.of_nat 0) with 0%Z. rewrite Z2Qc_inj_0. ring.
Qed.

End Ramp.

(** ** The colour map in exact arithmetic *)

Section ColorMapExact.
Local Open Scope Qc_scope.
Implicit Types (clines : list Qc) (k : nat).

Lemma zero_le_08 : Qc_of_Z 0 ≤ dec 8 10.
Proof. by vm_compute. Qed.
Lemma le_08_one : dec 8 10 ≤ Qc_of_Z 1.
Proof. by vm_compute. Qed.
Lemma le_02_one : dec 2 10 ≤ Qc_of_Z 1.
Proof. by vm_compute. Qed.
Lemma zero_le_02 : Qc_of_Z 0 ≤ dec 2 10.
Proof. by vm_compute. Qed.
Lemma zero_le_one : Qc_of_Z 0 ≤ Qc_of_Z 1.
Proof. by vm_compute. Qed.

(** Every colour of the result is the one the specification describes. *)
Lemma discrete_cmap_1_lookup clines :
  clines ≠ [] →
  ∃ colors, discrete_cmap_1 clines = Ok colors ∧
    length colors = Nat.pred (length clines) ∧
    ∀ k, (k < Nat.pred (length clines))%nat →
         colors !! k = Some (spec_color (Z.of_nat (length clines)) k).
Proof.
  intros Hne.
  destruct (discrete_cmap_1_channels clines Hne)
    as (g1 & g2 & r1 & r2 & b1 & b2 & Eg1 & Eg2 & Er1 & Er2 & Eb1 & Eb2 & E & L).
  destruct (discrete_cmap_1_length clines Hne) as (colors & E' & Hlen).
  simpl in *. destruct L as (Lg1 & Lr1 & Lb1 & Lg2 & Lr2 & Lb2).
  exists colors. split; [done |]. split; [done |].
  rewrite E in E'. injection E' as <-.
  set (N := Z.of_nat (length clines)) in *.
  assert (1 ≤ N)%Z by (subst N; destruct clines; [done | simpl; lia]).
  pose proof (n1_nonneg N ltac:(lia)) as Hn1.
  pose proof (n2_nonneg N ltac:(lia)) as Hn2.
  pose proof (n1_n2_sum N) as Hsum.
  unfold np.ones in Er2. destruct (Z.ltb_spec (n2 N) 0); [lia |].
  injection Er2 as <-.
  unfold np.zeros in Eb2. destruct (Z.ltb_spec (n2 N) 0); [lia |].
  injection Eb2 as <-.
  intros k Hk. unfold spec_color. destruct (decide _) as [Hlow | Hhigh].
  - apply lookup_zip3; rewrite lookup_app_l by lia.
    + apply linspace_ramp; [done | lia].
    + rewrite (linspace_ramp _ _ _ _ _ Eg1) by lia. f_equal.
      unfold ramp. destruct (_ <=? _)%Z; [done |]. simpl. ring.
    + apply linspace_ramp; [done | lia].
  - apply lookup_zip3; rewrite lookup_app_r by lia.
    + rewrite Lr1. apply lookup_replicate_2. lia.
    + rewrite Lg1. apply linspace_ramp; [done | lia].
    + rewrite Lb1. apply lookup_replicate_2. lia.
Qed.

Lemma spec_color_in_unit (N : Z) k :
  (Z.of_nat k < N - 1)%Z → rgb_in_unit (spec_color N k).
Proof.
  intros Hk. pose proof (n1_n2_sum N) as Hsum.
  unfold spec_color. destruct (decide _) as [Hlow | Hhigh];
    unfold rgb_in_unit, unit_interval; cbn [fst snd of_Z Qc_ops].
  - destruct (ramp_up_bounds (Qc_of_Z 0) (dec 8 10) (n1 N) k zero_le_08 Hlow).
    destruct (ramp_down_bounds (Qc_of_Z 1) (dec 2 10) (n1 N) k le_02_one Hlow).
    rewrite <- Z2Qc_inj_0, <- Z2Qc_inj_1.
    repeat split; eauto using Qcle_trans, Qcle_refl, zero_le_one,
      le_08_one, zero_le_02.
  - destruct (ramp_down_bounds (Qc_of_Z 1) (Qc_of_Z 0) (n2 N)
                (k - Z.to_nat (n1 N)) zero_le_one ltac:(lia)).
    rewrite <- Z2Qc_inj_0, <- Z2Qc_inj_1.
    repeat split; eauto using Qcle_refl, zero_le_one.
Qed.

Lemma spec_color_monotone (N : Z) i j :
  (i ≤ j)%nat → (Z.of_nat j < N - 1)%Z →
  (spec_color N i).1.1 ≤ (spec_color N j).1.1 ∧
  (spec_color N j).1.2 ≤ (spec_color N i).1.2 ∧
  (spec_color N j).2 ≤ (spec_color N i).2.
Proof.
  intros Hij Hj. pose proof (n1_n2_sum N) as Hsum.
  unfold spec_color.
  destruct (decide (Z.of_nat i < n1 N)%Z) as [Hi | Hi];
    destruct (decide (Z.of_nat j < n1 N)%Z) as [Hj' | Hj'];
    cbn [fst snd of_Z Qc_ops].
  - repeat split.
    + apply ramp_up_mono; [apply zero_le_08 | done].
    + apply Qcle_refl.
    + apply ramp_down_mono; [apply le_02_one | done].
  - destruct (ramp_up_bounds (Qc_of_Z 0) (dec 8 10) (n1 N) i zero_le_08 Hi).
    destruct (ramp_down_bounds (Qc_of_Z 1) (dec 2 10) (n1 N) i le_02_one Hi).
    destruct (ramp_down_bounds (Qc_of_Z 1) (Qc_of_Z 0) (n2 N)
                (j - Z.to_nat (n1 N)) zero_le_one ltac:(lia)).
    repeat split; eauto using Qcle_trans, le_08_one, zero_le_02.
  - lia.
  - repeat split.
    + apply Qcle_refl.
    + apply ramp_down_mono; [apply zero_le_one | lia].
    + apply Qcle_refl.
Qed.


(** In exact arithmetic every channel lies in [0, 1], and the colours are
    monotone along the whole sequence. *)
Lemma exact_channels_in_unit_interval clines :
  clines ≠ [] →
  ∃ colors, discrete_cmap_1 clines = Ok colors ∧ Forall rgb_in_unit colors.
Proof.
  intros Hne.
  destruct (discrete_cmap_1_lookup clines Hne) as (colors & E & L & Hk).
  exists colors. split; [done |].
  apply Forall_lookup_2. intros k c Hc.
  pose proof (lookup_lt_Some _ _ _ Hc) as Hlt.
  rewrite Hk in Hc by lia. injection Hc as <-.
  apply spec_color_in_unit. lia.
Qed.

Lemma exact_monotone_channels clines :
  clines ≠ [] →
  ∃ colors, discrete_cmap_1 clines = Ok colors ∧
    ∀ (i j : nat) ci cj, (i ≤ j)%nat →
      colors !! i = Some ci → colors !! j = Some cj →
      ci.1.1 ≤ cj.1.1 ∧ cj.1.2 ≤ ci.1.2 ∧ cj.2 ≤ ci.2.
Proof.
  intros Hne.
  destruct (discrete_cmap_1_lookup clines Hne) as (colors & E & L & Hk).
  exists colors. split; [done |].
  intros i j ci cj Hij Hi Hj.
  pose proof (lookup_lt_Some _ _ _ Hi). pose proof (lookup_lt_Some _ _ _ Hj).
  rewrite Hk in Hi by lia. rewrite Hk in Hj by lia.
  injection Hi as <-. injection Hj as <-.
  apply spec_color_monotone; lia.
Qed.

End ColorMapExact.

(** ** Two breaks *)

Lemma two_breaks_binary64 (x y : float) :
  discrete_cmap_1 (H := binary64_ops) [x; y] = Ok [(1%float, 1%float, 0%float)].
Proof. reflexivity. Qed.

Lemma two_breaks_exact (x y : Qc) :
  discrete_cmap_1 [x; y] = Ok [(Qc_of_Z 1, Qc_of_Z 1, Qc_of_Z 0)].
Proof.
  destruct (discrete_cmap_1_lookup [x; y] ltac:(done)) as (colors & E & L & Hk).
  rewrite E. f_equal. specialize (Hk 0%nat ltac:(simpl; lia)).
  destruct colors as [| c [| ? ?]]; simpl in L; try lia.
  simpl in Hk. injection Hk as ->. reflexivity.
Qed.

(** ** The masking cell: what each call does to the heap *)

Section MaskingFacts.
Context `{Float64Ops F}.
Import ma.
Implicit Types (σ : gmap loc (obj F)) (l : loc).

Lemma alloc_spec σ o :
  ∃ l, alloc o σ = (Ok l, <[l := o]> σ) ∧ σ !! l = None.
Proof.
  exists (fresh (dom σ)). split; [done |].
  apply not_elem_of_dom, is_fresh.
Qed.

Lemma less_spec σ a d c :
  σ !! a = Some (NdArray d) →
  ∃ l, less a c σ
       = (Ok l, <[l := BoolArray (Array (shape d) ((λ x, fltb x c) <$> flat d))]> σ)
       ∧ σ !! l = None.
Proof.
  intros Ha. unfold less, py_bind, deref. rewrite Ha. apply alloc_spec.
Qed.

Lemma masked_where_array σ c a cond d :
  σ !! c = Some (BoolArray cond) → σ !! a = Some (NdArray d) →
  shape cond = shape d →
  ∃ l, masked_where c a σ = (Ok l, <[l := MaskedArray d cond]> σ) ∧ σ !! l = None.
Proof.
  intros Hc Ha Hs. unfold masked_where, py_bind, deref. rewrite Hc, Ha.
  rewrite decide_True by done. apply alloc_spec.
Qed.

Lemma masked_where_masked σ c a cond d m :
  σ !! c = Some (BoolArray cond) → σ !! a = Some (MaskedArray d m) →
  shape cond = shape d →
  ∃ l, masked_where c a σ = (Ok l, <[l := MaskedArray d (mask_or cond m)]> σ)
       ∧ σ !! l = None.
Proof.
  intros Hc Ha Hs. unfold masked_where, py_bind, deref. rewrite Hc, Ha.
  rewrite decide_True by done. apply alloc_spec.
Qed.

(** An allocation leaves every object of the heap as it was. *)
Lemma insert_fresh_lookup σ l o l' o' :
  σ !! l = None → σ !! l' = Some o' → <[l := o]> σ !! l' = Some o'.
Proof. intros Hl Hl'. rewrite lookup_insert_ne; [done | congruence]. Qed.

Lemma preserving_ret {A} (a : A) : preserving (F := F) (py_ret a).
Proof. by intros σ. Qed.

Lemma preserving_raise {A} e : preserving (F := F) (raise (A := A) e).
Proof. by intros σ. Qed.

Lemma preserving_deref l : preserving (F := F) (deref l).
Proof. intros σ. unfold deref. by destruct (σ !! l). Qed.

Lemma preserving_alloc o : preserving (F := F) (alloc o).
Proof.
  intros σ. simpl. apply insert_subseteq, not_elem_of_dom, is_fresh.
Qed.

Lemma preserving_bind {A B} (m : py A) (f : A → py B) :
  preserving (F := F) m → (∀ a, preserving (F := F) (f a)) →
  preserving (F := F) (py_bind m f).
Proof.
  intros Hm Hf σ. unfold py_bind. specialize (Hm σ).
  destruct (m σ) as [[a | e] σ']; simpl in *; [| done].
  etrans; [exact Hm | apply Hf].
Qed.

Lemma preserving_less a c : preserving (F := F) (less a c).
Proof.
  apply preserving_bind; [apply preserving_deref |].
  intros [d | b | d m]; auto using preserving_alloc, preserving_raise.
Qed.

Lemma preserving_masked_where c a : preserving (F := F) (masked_where c a).
Proof.
  apply preserving_bind; [apply preserving_deref |]. intros o.
  apply preserving_bind; [apply preserving_deref |]. intros o'.
  destruct o as [? | cond | ? ?], o' as [d | ? | d m];
    try case_decide; auto using preserving_alloc, preserving_raise.
Qed.

Lemma preserving_masking_cell hmax topo : preserving (F := F) (masking_cell hmax topo).
Proof.
  unfold masking_cell.
  apply preserving_bind; [apply preserving_less | intros dry_cells].
  apply preserving_bind; [apply preserving_masked_where | intros hmax_dry].
  apply preserving_bind; [apply preserving_less | intros water_cells].
  apply preserving_bind; [apply preserving_masked_where | intros hmax_onshore].
  apply preserving_ret.
Qed.

End MaskingFacts.

(** ** The raster loader on a well-formed file *)


Section HeaderScan.
Import data_tools.
Implicit Types (seen : gmap string string) (kvs : list (string * string)).







End HeaderScan.

Section LoaderFacts.
Import data_tools.
Context `{Float64Ops F}.
Variable parse_int : string → option Z.
Variable parse_float : string → option F.










End LoaderFacts.

Section CellCentres.
Import data_tools.
Local Open Scope Qc_scope.
Implicit Types (h : RasterHeader Qc).

Lemma x_coordinates_lookup h (j : nat) x :
  x_coordinates h !! j = Some x →
  x = xll_corner h + (Qc_of_Z (Z.of_nat j) + dec 5 10) * cell_size h.
Proof.
  unfold x_coordinates. rewrite list_lookup_fmap.
  destruct (seqZ 0 (ncols h) !! j) as [z |] eqn:E; [| done].
  apply lookup_seqZ in E as [-> _]. simpl. by intros [= <-].
Qed.

Lemma y_coordinates_lookup h (i : nat) y :
  y_coordinates h !! i = Some y →
  y = yll_corner h
      + (Qc_of_Z (nrows h - 1 - Z.of_nat i) + dec 5 10) * cell_size h.
Proof.
  unfold y_coordinates. rewrite list_lookup_fmap.
  destruct (seqZ 0 (nrows h) !! i) as [z |] eqn:E; [| done].
  apply lookup_seqZ in E as [-> _]. simpl. by intros [= <-].
Qed.

Lemma centre_lt (o cs : Qc) (a b : Z) :
  0 < cs → (a < b)%Z →
  o + (Qc_of_Z a + dec 5 10) * cs < o + (Qc_of_Z b + dec 5 10) * cs.
Proof.
  intros Hcs Hab.
  apply (proj1 (Qcplus_lt_mono_l _ _ o)).
  apply (proj1 (Qcmult_lt_mono_pos_r _ _ cs Hcs)).
  apply (proj1 (Qcplus_lt_mono_r _ _ (dec 5 10))).
  by apply (Z2Qc_inj_lt a b).
Qed.

(** In exact arithmetic the cell centres are strictly ordered. *)
Lemma x_coordinates_increasing h :
  0 < cell_size h → strictly_increasing (x_coordinates h).
Proof.
  intros Hcs i j x y Hij Hx Hy. apply bool_decide_eq_true_2.
  rewrite (x_coordinates_lookup h i x Hx), (x_coordinates_lookup h j y Hy).
  apply centre_lt; [done | lia].
Qed.

Lemma y_coordinates_decreasing h :
  0 < cell_size h → strictly_decreasing (y_coordinates h).
Proof.
  intros Hcs i j x y Hij Hx Hy. apply bool_decide_eq_true_2.
  rewrite (y_coordinates_lookup h i x Hx), (y_coordinates_lookup h j y Hy).
  apply centre_lt; [done | lia].
Qed.

End CellCentres.

(** On two loaded arrays of one shape the cell succeeds; its results are new
    objects, and the heap it ends with extends the heap it started from. *)
Lemma masking_cell_same_shape `{Float64Ops F}
    (σ : gmap ma.loc (ma.obj F)) (hmax topo : ma.loc) (h t : ma.ndarray F) :
  σ !! hmax = Some (ma.NdArray h) →
  σ !! topo = Some (ma.NdArray t) →
  ma.shape t = ma.shape h →
  ∃ hmax_dry hmax_onshore σ',
    ma.masking_cell hmax topo σ = (Ok (hmax_dry, hmax_onshore), σ') ∧
    σ !! hmax_dry = None ∧ σ !! hmax_onshore = None ∧
    hmax_dry ≠ hmax_onshore ∧
    σ' !! hmax_dry = Some (ma.MaskedArray h (ma.dry_mask h)) ∧
    σ' !! hmax_onshore
      = Some (ma.MaskedArray h (ma.mask_or (ma.water_mask t) (ma.dry_mask h))) ∧
    σ' !! hmax = Some (ma.NdArray h) ∧
    σ' !! topo = Some (ma.NdArray t) ∧
    σ ⊆ σ'.
Proof.
  intros Hh Ht Hs.
  unfold ma.masking_cell, ma.py_bind.
  destruct (less_spec σ hmax h (dec 1 1000) Hh) as (l1 & -> & F1).
  set (σ1 := <[l1 := _]> σ) in *.
  destruct (masked_where_array σ1 l1 hmax (ma.dry_mask h) h) as (l2 & -> & F2).
  { apply lookup_insert_eq. }
  { by apply insert_fresh_lookup. }
  { done. }
  set (σ2 := <[l2 := _]> σ1) in *.
  assert (σ2 !! topo = Some (ma.NdArray t)) as Ht2
    by by do 2 (apply insert_fresh_lookup; [done |]).
  destruct (less_spec σ2 topo t (of_Z 0) Ht2) as (l3 & -> & F3).
  set (σ3 := <[l3 := _]> σ2) in *.
  destruct (masked_where_masked σ3 l3 l2 (ma.water_mask t) h (ma.dry_mask h))
    as (l4 & -> & F4).
  { apply lookup_insert_eq. }
  { apply insert_fresh_lookup; [done | apply lookup_insert_eq]. }
  { done. }
  set (σ4 := <[l4 := _]> σ3) in *.
  assert (σ3 !! l2 = Some (ma.MaskedArray h (ma.dry_mask h))) as H32
    by (apply insert_fresh_lookup; [done | apply lookup_insert_eq]).
  assert (σ ⊆ σ1) as S1 by by apply insert_subseteq.
  assert (σ1 ⊆ σ2) as S2 by by apply insert_subseteq.
  assert (σ2 ⊆ σ3) as S3 by by apply insert_subseteq.
  assert (σ3 ⊆ σ4) as S4 by by apply insert_subseteq.
  assert (σ ⊆ σ3) as S13 by by do 2 (etrans; [eassumption |]).
  assert (σ ⊆ σ4) as Hframe by by etrans.
  exists l2, l4, σ4. repeat split.
  - eapply lookup_weaken_None; [exact F2 | exact S1].
  - eapply lookup_weaken_None; [exact F4 | exact S13].
  - intros ->. congruence.
  - by apply insert_fresh_lookup.
  - apply lookup_insert_eq.
  - eapply lookup_weaken; [exact Hh | exact Hframe].
  - eapply lookup_weaken; [exact Ht | exact Hframe].
  - exact Hframe.
Qed.

(** ** Evaluations in binary64 and on the example file *)

(** The decimal literals of the source are the binary64 values nearest to
    them. *)
Lemma dec_binary64 :
  dec (H := binary64_ops) 8 10 = 0x1.999999999999ap-1%float ∧
  dec (H := binary64_ops) 2 10 = 0x1.999999999999ap-3%float ∧
  dec (H := binary64_ops) 1 1000 = 0x1.0624dd2f1a9fcp-10%float.
Proof. repeat split; reflexivity. Qed.

(** Five breaks: four colours, from turquoise to red. *)
Lemma five_breaks_binary64 :
  discrete_cmap_1 (H := binary64_ops) [0; 1; 2; 3; 4]%float
  = Ok [(0%float, 1%float, 1%float);
        (dec (H := binary64_ops) 8 10, 1%float, dec (H := binary64_ops) 2 10);
        (1%float, 1%float, 0%float);
        (1%float, 0%float, 0%float)].
Proof. reflexivity. Qed.

(** The notebook's own call: eight colours, all channels in [0, 1], and
    monotone. *)
Lemma depth_colors_binary64 :
  ∃ depth_colors,
    discrete_cmap_1 (H := binary64_ops) examples.depth_contour_levels
      = Ok depth_colors ∧
    length depth_colors = 8%nat ∧
    forallb examples.color_in_unit depth_colors = true ∧
    examples.colors_monotone depth_colors = true.
Proof. eexists. repeat split; reflexivity. Qed.



(** The masks of the example heap: the first cell is dry, the second is
    under water, so both are masked in [hmax_onshore]. *)
Lemma example_masks :
  ma.flat (ma.dry_mask examples.hmax_array) = [true; false] ∧
  ma.flat (ma.water_mask examples.topo_array) = [false; true] ∧
  ma.flat (ma.mask_or (ma.water_mask examples.topo_array)
                      (ma.dry_mask examples.hmax_array)) = [true; true].
Proof. repeat split; vm_compute; reflexivity. Qed.

(** The example file loads; without its [cellsize] line, with a short data
    row, or under another path it does not. *)
Lemma load_example_file :
  data_tools.load_raster examples.read_int examples.read_number
    examples.raster_fs examples.raster_path true
  = Ok (data_tools.MkGrid examples.raster_header examples.raster_rows
          (data_tools.x_coordinates examples.raster_header)
          (data_tools.y_coordinates examples.raster_header),
        Some 1%nat).
Proof. vm_compute. reflexivity. Qed.

Lemma load_missing_cellsize :
  data_tools.load_raster examples.read_int examples.read_number
    (λ _, Some ["nrows 2"; "ncols 3"; "xllcorner -124"; "yllcorner 41";
                "NODATA_value -9999"; "0 1 2"; "3 4 5"]%string)
    examples.raster_path false
  = Raise FormatError.
Proof. vm_compute. reflexivity. Qed.

Lemma load_short_row :
  data_tools.load_raster examples.read_int examples.read_number
    (λ _, Some ["nrows 2"; "ncols 3"; "xllcorner -124"; "yllcorner 41";
                "cellsize 1"; "NODATA_value -9999"; "0 1 2"; "3 4"]%string)
    examples.raster_path false
  = Raise FormatError.
Proof. vm_compute. reflexivity. Qed.

Lemma load_missing_file :
  data_tools.load_raster examples.read_int examples.read_number
    examples.raster_fs "nowhere.asc" false
  = Raise IOError.
Proof. reflexivity. Qed.

Lemma raster_lines_well_formed :
  data_tools.well_formed_file examples.read_int examples.read_number
    examples.raster_lines examples.raster_header examples.raster_rows.
Proof.
  exists (take 6 examples.raster_lines), (drop 6 examples.raster_lines),
    [("nrows", "2"); ("ncols", "3"); ("xllcorner", "-124");
     ("yllcorner", "41"); ("cellsize", "1"); ("nodata_value", "-9999")]%string.
  split; [reflexivity |]. split.
  { repeat constructor.
    - by exists "nrows"%string.
    - by exists "NCOLS"%string.
    - by exists "xllcorner"%string.
    - by exists "yllcorner"%string.
    - by exists "cellsize"%string.
    - by exists "NODATA_value"%string. }
  split.
  { exists "3"%string, "2"%string, "-124"%string, "41"%string, "1"%string,
      "-9999"%string.
    split; [apply perm_swap |]. repeat split; reflexivity. }
  split; [done |]. split; [done |]. split.
  { apply bool_decide_eq_true_2. by vm_compute. }
  split; [reflexivity |].
  repeat constructor.
Qed.

(** ** The order of binary64 values and of the rationals *)

Section SpecOrder.
Implicit Types (x y z : spec_float).

Lemma compare_cont_Eq_spec (p q : positive) :
  match PosDef.Pos.compare_cont Eq p q with
  | Eq => p = q
  | Lt => (p < q)%positive
  | Gt => (q < p)%positive
  end.
Proof.
  change (PosDef.Pos.compare_cont Eq p q) with (Pos.compare p q).
  destruct (Pos.compare_spec p q); done.
Qed.

Ltac order_cases :=
  repeat match goal with
  | |- context [PosDef.Pos.compare_cont Eq ?p ?q] =>
      let H := fresh in
      pose proof (compare_cont_Eq_spec p q) as H;
      destruct (PosDef.Pos.compare_cont Eq p q)
  | H : context [PosDef.Pos.compare_cont Eq ?p ?q] |- _ =>
      let H' := fresh in
      pose proof (compare_cont_Eq_spec p q) as H';
      destruct (PosDef.Pos.compare_cont Eq p q)
  | |- context [(?a ?= ?b)%Z] => destruct (Z.compare_spec a b)
  | H : context [(?a ?= ?b)%Z] |- _ => destruct (Z.compare_spec a b)
  end.

Ltac spec_order :=
  unfold SFltb, SFeqb, SFleb, SFcompare;
  repeat match goal with
  | x : spec_float |- _ => destruct x as [[] | [] | | [] ? ?]
  end; simpl; try done; intros; order_cases; simpl in *;
  try done; try lia.

Lemma SFltb_irrefl x : SFltb x x = false.
Proof. spec_order. Qed.

Lemma SFltb_trans x y z :
  SFltb x y = true → SFltb y z = true → SFltb x z = true.
Proof. spec_order. Qed.

Lemma SFeqb_not_lt x y : SFeqb x y = true → SFltb x y = false.
Proof. spec_order. Qed.

Lemma SFltb_total x y :
  SFeqb x x = true → SFeqb y y = true →
  SFltb y x = false → SFeqb x y = false → SFltb x y = true.
Proof. spec_order. Qed.

Lemma SF_nan_unordered x y :
  SFeqb y y = false →
  SFltb y x = false ∧ SFltb x y = false ∧ SFeqb x y = false.
Proof. spec_order. Qed.

Lemma SFleb_trans x y z :
  SFleb x y = true → SFleb y z = true → SFleb x z = true.
Proof. spec_order. Qed.

Lemma SFleb_refl x y : SFleb x y = true → SFleb x x = true ∧ SFleb y y = true.
Proof. spec_order. Qed.

End SpecOrder.

Lemma binary64_order : Float64Order float (H := binary64_ops).
Proof.
  split; cbn [fltb feqb binary64_ops]; intros *;
    rewrite ?ltb_spec, ?FloatAxioms.eqb_spec.
  - apply SFltb_irrefl.
  - apply SFltb_trans.
  - apply SFeqb_not_lt.
  - apply SFltb_total.
  - apply SF_nan_unordered.
Qed.

Global Instance Qc_order : Float64Order Qc.
Proof.
  split; cbn [fltb feqb Qc_ops].
  - intros x. apply bool_decide_eq_false_2.
    intros Hx. by apply (Qclt_not_eq x x Hx).
  - intros x y z Hxy%bool_decide_eq_true_1 Hyz%bool_decide_eq_true_1.
    apply bool_decide_eq_true_2. by eapply Qclt_trans.
  - intros x y ->%bool_decide_eq_true_1.
    apply bool_decide_eq_false_2. intros Hy. by apply (Qclt_not_eq y y Hy).
  - intros x y _ _ Hyx%bool_decide_eq_false_1 Hne%bool_decide_eq_false_1.
    apply bool_decide_eq_true_2.
    destruct (Qclt_le_dec x y) as [? | Hle]; [done |].
    destruct (Qcle_lt_or_eq _ _ Hle) as [? | ?]; [done | by subst].
  - intros x y Hy%bool_decide_eq_false_1. done.
Qed.

Lemma leb_trans (x y z : float) :
  PrimFloat.leb x y = true → PrimFloat.leb y z = true →
  PrimFloat.leb x z = true.
Proof. rewrite !leb_spec. apply SFleb_trans. Qed.

Lemma leb_refl (x y : float) :
  PrimFloat.leb x y = true →
  PrimFloat.leb x x = true ∧ PrimFloat.leb y y = true.
Proof. rewrite !leb_spec. apply SFleb_refl. Qed.

(** ** The colour map in binary64, by evaluation

    The builder reads the number of breaks only, so its colours for every
    breaks sequence of up to [examples.max_breaks] values are known from
    one evaluation per length. *)

Lemma all_lengths_checked : examples.all_lengths examples.all_checks = true.
Proof. vm_compute. reflexivity. Qed.

Lemma all_lengths_spec check (N : nat) :
  examples.all_lengths check = true →
  (2 ≤ N ≤ examples.max_breaks)%nat →
  ∃ colors, examples.colors_of_length N = Ok colors ∧ check N colors = true.
Proof.
  unfold examples.all_lengths. rewrite List.forallb_forall.
  intros Hall HN. specialize (Hall N).
  destruct (examples.colors_of_length N) as [colors | e].
  - exists colors. split; [done |]. apply Hall.
    apply List.in_seq. unfold examples.max_breaks in *. lia.
  - discriminate Hall.
    apply List.in_seq. unfold examples.max_breaks in *. lia.
Qed.

Lemma checked_colors (clines : list float) :
  (2 ≤ length clines ≤ examples.max_breaks)%nat →
  ∃ colors, discrete_cmap_1 (H := binary64_ops) clines = Ok colors ∧
            examples.all_checks (length clines) colors = true.
Proof.
  intros Hlen.
  rewrite (discrete_cmap_1_by_length (H := binary64_ops) clines).
  exact (all_lengths_spec _ _ all_lengths_checked Hlen).
Qed.

(** Monotone from each colour to the next is monotone from each colour to
    every later one. *)
Lemma color_step_trans c1 c2 c3 :
  examples.color_step c1 c2 = true → examples.color_step c2 c3 = true →
  examples.color_step c1 c3 = true.
Proof.
  unfold examples.color_step.
  intros [[? ?]%andb_prop ?]%andb_prop [[? ?]%andb_prop ?]%andb_prop.
  repeat (apply andb_true_intro; split); by eapply leb_trans.
Qed.

Lemma color_step_refl c :
  examples.color_in_unit c = true → examples.color_step c c = true.
Proof.
  unfold examples.color_in_unit, examples.float_in_unit, examples.color_step.
  intros [[[? _]%andb_prop [? _]%andb_prop]%andb_prop [? _]%andb_prop]%andb_prop.
  repeat (apply andb_true_intro; split); by eapply leb_refl.
Qed.

Lemma colors_monotone_pairs (cs : list (float * float * float)) :
  examples.colors_monotone cs = true →
  forallb examples.color_in_unit cs = true →
  ∀ (i j : nat) ci cj, (i ≤ j)%nat →
    cs !! i = Some ci → cs !! j = Some cj →
    examples.color_step ci cj = true.
Proof.
  induction cs as [| c cs IH]; [done |].
  intros Hm Hu i j ci cj Hij Hi Hj.
  simpl in Hu. apply andb_prop in Hu as [Hc Hu].
  assert (examples.colors_monotone cs = true) as Hm'.
  { destruct cs; [done |]. simpl in Hm. by apply andb_prop in Hm as [_ ?]. }
  destruct i as [| i], j as [| j]; simpl in Hi, Hj; try lia.
  - injection Hi as <-. injection Hj as <-. by apply color_step_refl.
  - injection Hi as <-. destruct cs as [| c' cs]; [done |].
    simpl in Hm. apply andb_prop in Hm as [Hstep _].
    apply (color_step_trans _ c'); [done |].
    apply (IH Hm' Hu 0%nat j); [lia | done | done].
  - apply (IH Hm' Hu i j); [lia | done | done].
Qed.

(** ** The call of the builder: what each statement does to the heap *)

Section CallFacts.
Context `{Float64Ops F}.
Implicit Types (σ : gmap call.loc (call.obj F)) (l : call.loc).

Lemma new_object σ o :
  ∃ l, call.alloc o σ = (Ok l, <[l := o]> σ) ∧ σ !! l = None.
Proof.
  exists (fresh (dom σ)). split; [done |].
  apply not_elem_of_dom, is_fresh.
Qed.

Lemma construct_ok σ r y :
  r = Ok y →
  ∃ l, call.construct r σ = (Ok l, <[l := call.Floats y]> σ) ∧ σ !! l = None.
Proof. intros ->. apply new_object. Qed.

Lemma hstack_ok σ a b x y :
  σ !! a = Some (call.Floats x) → σ !! b = Some (call.Floats y) →
  ∃ l, call.hstack a b σ = (Ok l, <[l := call.Floats (x ++ y)]> σ)
       ∧ σ !! l = None.
Proof.
  intros Ha Hb. unfold call.hstack, call.py_bind, call.deref.
  rewrite Ha, Hb, hstack_pair. apply new_object.
Qed.

Lemma list_zip_ok σ r g b x y z :
  σ !! r = Some (call.Floats x) → σ !! g = Some (call.Floats y) →
  σ !! b = Some (call.Floats z) →
  ∃ l, call.list_zip r g b σ = (Ok l, <[l := call.Colors (zip3 x y z)]> σ)
       ∧ σ !! l = None.
Proof.
  intros Hr Hg Hb. unfold call.list_zip, call.py_bind, call.deref.
  rewrite Hr, Hg, Hb. apply new_object.
Qed.

Lemma later_lookup σ l o l' o' :
  σ !! l = None → σ !! l' = Some o' → <[l := o]> σ !! l' = Some o'.
Proof. intros Hl Hl'. rewrite lookup_insert_ne; [done | congruence]. Qed.

(** A call on a heap that holds the breaks: it reads them, changes and
    removes no object, and what it returns is what the function
    [discrete_cmap_1] gives on the breaks, held by a new object. *)
Lemma call_discrete_cmap_1 σ clines items :
  σ !! clines = Some (call.Floats items) →
  ∃ r σ',
    call.discrete_cmap_1 clines σ = (r, σ') ∧
    σ ⊆ σ' ∧
    call.outcome r σ' = discrete_cmap_1 items ∧
    (∀ l, r = Ok l → σ !! l = None) ∧
    (∀ e, r = Raise e → σ' = σ).
Proof.
  intros Hc. unfold call.discrete_cmap_1.
  unfold call.len, call.py_bind at 1 2, call.deref. rewrite Hc.
  cbn [call.py_ret].
  destruct (decide (items = [])) as [-> | Hne].
  { cbn [length]. unfold call.py_bind at 1, call.linspace.
    rewrite linspace_negative by done. cbn [call.construct call.raise].
    exists (Raise ValueError), σ. by repeat split. }
  destruct (discrete_cmap_1_channels items Hne)
    as (g1 & g2 & r1 & r2 & b1 & b2 & Eg1 & Eg2 & Er1 & Er2 & Eb1 & Eb2 & E & _).
  cbv zeta in *. set (N := Z.of_nat (length items)) in *.
  unfold call.py_bind, call.linspace, call.ones, call.zeros.
  destruct (construct_ok σ _ g1 Eg1) as (lg1 & -> & F1).
  set (σ1 := <[lg1 := _]> σ) in *.
  destruct (construct_ok σ1 _ g2 Eg2) as (lg2 & -> & F2).
  set (σ2 := <[lg2 := _]> σ1) in *.
  destruct (hstack_ok σ2 lg1 lg2 g1 g2) as (lG & -> & F3).
  { apply later_lookup; [done | apply lookup_insert_eq]. }
  { apply lookup_insert_eq. }
  set (σ3 := <[lG := _]> σ2) in *.
  destruct (construct_ok σ3 _ r1 Er1) as (lr1 & -> & F4).
  set (σ4 := <[lr1 := _]> σ3) in *.
  destruct (construct_ok σ4 _ r2 Er2) as (lr2 & -> & F5).
  set (σ5 := <[lr2 := _]> σ4) in *.
  destruct (hstack_ok σ5 lr1 lr2 r1 r2) as (lR & -> & F6).
  { apply later_lookup; [done | apply lookup_insert_eq]. }
  { apply lookup_insert_eq. }
  set (σ6 := <[lR := _]> σ5) in *.
  destruct (construct_ok σ6 _ b1 Eb1) as (lb1 & -> & F7).
  set (σ7 := <[lb1 := _]> σ6) in *.
  destruct (construct_ok σ7 _ b2 Eb2) as (lb2 & -> & F8).
  set (σ8 := <[lb2 := _]> σ7) in *.
  destruct (hstack_ok σ8 lb1 lb2 b1 b2) as (lB & -> & F9).
  { apply later_lookup; [done | apply lookup_insert_eq]. }
  { apply lookup_insert_eq. }
  set (σ9 := <[lB := _]> σ8) in *.
  destruct (list_zip_ok σ9 lR lG lB (r1 ++ r2) (g1 ++ g2) (b1 ++ b2))
    as (lc & -> & F10).
  { do 3 (apply later_lookup; [done |]). apply lookup_insert_eq. }
  { do 6 (apply later_lookup; [done |]). apply lookup_insert_eq. }
  { apply lookup_insert_eq. }
  set (σ10 := <[lc := _]> σ9) in *.
  assert (σ ⊆ σ9) as Hframe.
  { repeat (etrans; [| apply insert_subseteq; eassumption]). done. }
  exists (Ok lc), σ10. split; [done |]. split.
  { etrans; [exact Hframe | by apply insert_subseteq]. }
  split.
  { unfold call.outcome, σ10. by rewrite lookup_insert_eq, E. }
  split; [| done].
  intros l [= <-]. eapply lookup_weaken_None; [exact F10 | exact Hframe].
Qed.

End CallFacts.

(** * The claims about the colour map builder *)

(** C1. For every breaks sequence of N >= 2 values the builder returns an
    ordered sequence of exactly N-1 RGB triples, whatever the arithmetic. *)
Theorem C1_number_of_colors `{Float64Ops F} (clines : list F) :
  (2 ≤ length clines)%nat →
  ∃ colors, discrete_cmap_1 clines = Ok colors ∧
            length colors = (length clines - 1)%nat.
Proof.
  intros Hlen.
  destruct (discrete_cmap_1_length clines) as (colors & E & L).
  - intros ->. simpl in Hlen. lia.
  - exists colors. split; [done | lia].
Qed.

Lemma C1_number_of_colors_witness :
  let clines := [0; 1; 2; 3; 4]%float in
  ∃ colors, discrete_cmap_1 (H := binary64_ops) clines = Ok colors ∧
            length colors = (length clines - 1)%nat.
Proof.
  apply (C1_number_of_colors (H := binary64_ops) [0; 1; 2; 3; 4]%float).
  simpl. lia.
Defined.




(** C3, as the code has it. For N >= 2 breaks with N-1 odd, the extra
    interval goes to the high half: [n2 = n1 + 1], so [n1 < n2]
    ([n1 = floor((N-1)/2)] is the smaller half). *)
Theorem C3_extra_interval_is_high `{Float64Ops F} (clines : list F) :
  (2 ≤ length clines)%nat →
  Z.odd (Z.of_nat (length clines) - 1) = true →
  n2 (Z.of_nat (length clines)) = n1 (Z.of_nat (length clines)) + 1 ∧
  n1 (Z.of_nat (length clines)) < n2 (Z.of_nat (length clines)).
Proof.
  intros _ Hodd. set (N := Z.of_nat (length clines)) in *. unfold n2, n1.
  pose proof (Z.div_mod (N - 1) 2 ltac:(lia)) as Hdm.
  rewrite Zmod_odd, Hodd in Hdm. lia.
Qed.

Lemma C3_extra_interval_is_high_witness :
  let clines := [0; 1]%float in
  n2 (Z.of_nat (length clines)) = n1 (Z.of_nat (length clines)) + 1 ∧
  n1 (Z.of_nat (length clines)) < n2 (Z.of_nat (length clines)).
Proof.
  apply (C3_extra_interval_is_high (H := binary64_ops) [0; 1]%float).
  - simpl. lia.
  - reflexivity.
Defined.

(** C3 fails as stated: for the two breaks [0, 1] there is one interval (an
    odd number), and it is a high one: [n1 = 0], [n2 = 1]. *)
Lemma C3_low_half_not_larger :
  let N := Z.of_nat (length [0%float; 1%float]) in
  (2 ≤ N) ∧ Z.odd (N - 1) = true ∧ n1 N = 0 ∧ n2 N = 1 ∧ ¬ (n1 N > n2 N).
Proof. cbv. repeat split; done. Qed.

(** C4, as the code has it. The builder raises exactly on the empty breaks
    sequence, and then a [ValueError] (numpy's, for the count [n1 = -1]); on
    every other sequence it returns, and on a single break it returns the
    empty colour list. *)
Theorem C4_failure_modes `{Float64Ops F} (clines : list F) :
  (∀ e, discrete_cmap_1 clines = Raise e ↔ e = ValueError ∧ clines = []) ∧
  (length clines = 1%nat ↔ discrete_cmap_1 clines = Ok []).
Proof.
  destruct clines as [| x clines].
  - split; [| by split].
    intros e. rewrite discrete_cmap_1_empty. split.
    + by intros [= <-].
    + by intros [-> _].
  - destruct (discrete_cmap_1_length (x :: clines) ltac:(done)) as (colors & E & L).
    rewrite E. split.
    + intros e. split; [done | by intros [_ ?]].
    + simpl in *. split.
      * intros [= Hl]. rewrite Hl in L. by destruct colors.
      * intros [= ->]. simpl in L. by rewrite <- L.
Qed.

(** C4 fails as stated: the single break [[0]] has length < 2, and the
    builder returns the empty list instead of raising. *)
Lemma C4_single_break_returns :
  (length [0%float] < 2)%nat ∧
  discrete_cmap_1 (H := binary64_ops) [0%float] = Ok [] ∧
  discrete_cmap_1 (Qc_of_Z <$> [0]) = Ok [] ∧
  discrete_cmap_1 (H := binary64_ops) [0%float] ≠ Raise ValueError.
Proof. repeat split; [simpl; lia | done]. Qed.

(** C5, as the code has it. On two breaks the builder returns exactly one
    triple, and it is (1.0, 1.0, 0.0): the single interval is a high one
    and takes the start of the high ramp.  This holds in binary64 and in
    exact arithmetic, whatever the two break values. *)
Theorem C5_two_breaks :
  (∀ x y : float,
     discrete_cmap_1 (H := binary64_ops) [x; y] = Ok [(1%float, 1%float, 0%float)]) ∧
  (∀ x y : Qc,
     discrete_cmap_1 [x; y] = Ok [(Qc_of_Z 1, Qc_of_Z 1, Qc_of_Z 0)]).
Proof.
  split; intros x y.
  - apply two_breaks_binary64.
  - apply two_breaks_exact.
Qed.

(** C5 fails as stated: on [[0, 1]] the triple is not (0.0, 1.0, 1.0),
    neither in binary64 nor in exact arithmetic. *)
Lemma C5_not_turquoise :
  discrete_cmap_1 (H := binary64_ops) [0%float; 1%float]
    ≠ Ok [(0%float, 1%float, 1%float)] ∧
  discrete_cmap_1 (Qc_of_Z <$> [0; 1])
    ≠ Ok [(Qc_of_Z 0, Qc_of_Z 1, Qc_of_Z 1)].
Proof.
  split.
  - rewrite two_breaks_binary64. intros [= Hr _].
  - simpl. rewrite two_breaks_exact. intros [= Hr _].
Qed.

(** C7. A call of the builder has no effect on the objects of the heap,
    and its outcome is a function of the breaks: run on two heaps that
    hold the same breaks, at whatever addresses and next to whatever other
    objects (so also run twice in a row), the two calls give the same
    colours, bit for bit in binary64, or the same exception, the one the
    function [discrete_cmap_1] gives on the breaks; and each call leaves
    every object of its heap, the breaks among them, as it was. *)
Theorem C7_deterministic `{Float64Ops F}
    (σ1 σ2 : gmap call.loc (call.obj F)) (clines1 clines2 : call.loc)
    (items : list F) :
  σ1 !! clines1 = Some (call.Floats items) →
  σ2 !! clines2 = Some (call.Floats items) →
  ∃ r1 σ1' r2 σ2',
    call.discrete_cmap_1 clines1 σ1 = (r1, σ1') ∧
    call.discrete_cmap_1 clines2 σ2 = (r2, σ2') ∧
    call.outcome r1 σ1' = call.outcome r2 σ2' ∧
    call.outcome r1 σ1' = discrete_cmap_1 items ∧
    σ1 ⊆ σ1' ∧ σ2 ⊆ σ2' ∧
    σ1' !! clines1 = Some (call.Floats items) ∧
    σ2' !! clines2 = Some (call.Floats items).
Proof.
  intros H1 H2.
  destruct (call_discrete_cmap_1 σ1 clines1 items H1)
    as (r1 & σ1' & E1 & S1 & O1 & _).
  destruct (call_discrete_cmap_1 σ2 clines2 items H2)
    as (r2 & σ2' & E2 & S2 & O2 & _).
  exists r1, σ1', r2, σ2'. repeat split; try done.
  - by rewrite O1, O2.
  - by eapply lookup_weaken.
  - by eapply lookup_weaken.
Qed.

Lemma C7_deterministic_witness :
  ∃ r1 σ1' r2 σ2',
    call.discrete_cmap_1 (H := binary64_ops) 1%positive examples.breaks_heap
      = (r1, σ1') ∧
    call.discrete_cmap_1 (H := binary64_ops) 7%positive examples.other_heap
      = (r2, σ2') ∧
    call.outcome r1 σ1' = call.outcome r2 σ2' ∧
    call.outcome r1 σ1'
      = discrete_cmap_1 (H := binary64_ops) examples.depth_contour_levels ∧
    examples.breaks_heap ⊆ σ1' ∧ examples.other_heap ⊆ σ2' ∧
    σ1' !! 1%positive = Some (call.Floats examples.depth_contour_levels) ∧
    σ2' !! 7%positive = Some (call.Floats examples.depth_contour_levels).
Proof.
  apply (C7_deterministic (H := binary64_ops)
           examples.breaks_heap examples.other_heap 1%positive 7%positive
           examples.depth_contour_levels).
  - reflexivity.
  - reflexivity.
Defined.

(** * The claim about the masking cell *)

(** C9. Run on a heap that holds the loaded [hmax] and [topo] arrays, the
    two masking statements leave [hmax] and [topo] holding the arrays they
    held before, as they leave every other object, whatever the outcome;
    and when the two arrays have one shape the statements succeed, and
    [hmax_dry] and [hmax_onshore] are new objects holding the derived
    masked arrays. *)
Theorem C9_masking_keeps_loaded_arrays `{Float64Ops F}
    (σ : gmap ma.loc (ma.obj F)) (hmax topo : ma.loc) (h t : ma.ndarray F) :
  σ !! hmax = Some (ma.NdArray h) →
  σ !! topo = Some (ma.NdArray t) →
  ∃ r σ',
    ma.masking_cell hmax topo σ = (r, σ') ∧
    σ' !! hmax = Some (ma.NdArray h) ∧
    σ' !! topo = Some (ma.NdArray t) ∧
    σ ⊆ σ' ∧
    (ma.shape t = ma.shape h →
     ∃ hmax_dry hmax_onshore,
       r = Ok (hmax_dry, hmax_onshore) ∧
       σ !! hmax_dry = None ∧ σ !! hmax_onshore = None ∧
       hmax_dry ≠ hmax_onshore ∧
       σ' !! hmax_dry = Some (ma.MaskedArray h (ma.dry_mask h)) ∧
       σ' !! hmax_onshore
         = Some (ma.MaskedArray h
                   (ma.mask_or (ma.water_mask t) (ma.dry_mask h)))).
Proof.
  intros Hh Ht.
  pose proof (preserving_masking_cell hmax topo σ) as Hframe.
  destruct (ma.masking_cell hmax topo σ) as [r σ'] eqn:E. simpl in Hframe.
  exists r, σ'. split; [done |].
  split; [by eapply lookup_weaken |].
  split; [by eapply lookup_weaken |].
  split; [done |].
  intros Hs.
  destruct (masking_cell_same_shape σ hmax topo h t Hh Ht Hs)
    as (dry & onshore & σ'' & E' & ? & ? & ? & ? & ? & _).
  rewrite E in E'. injection E' as -> ->.
  by exists dry, onshore.
Qed.

Lemma C9_masking_keeps_loaded_arrays_witness :
  ∃ r σ',
    ma.masking_cell 1%positive 2%positive examples.loaded_heap = (r, σ') ∧
    σ' !! 1%positive = Some (ma.NdArray examples.hmax_array) ∧
    σ' !! 2%positive = Some (ma.NdArray examples.topo_array) ∧
    examples.loaded_heap ⊆ σ' ∧
    (ma.shape examples.topo_array = ma.shape examples.hmax_array →
     ∃ hmax_dry hmax_onshore,
       r = Ok (hmax_dry, hmax_onshore) ∧
       examples.loaded_heap !! hmax_dry = None ∧
       examples.loaded_heap !! hmax_onshore = None ∧
       hmax_dry ≠ hmax_onshore ∧
       σ' !! hmax_dry
         = Some (ma.MaskedArray examples.hmax_array
                   (ma.dry_mask examples.hmax_array)) ∧
       σ' !! hmax_onshore
         = Some (ma.MaskedArray examples.hmax_array
                   (ma.mask_or (ma.water_mask examples.topo_array)
                               (ma.dry_mask examples.hmax_array)))).
Proof.
  apply (C9_masking_keeps_loaded_arrays examples.loaded_heap 1%positive 2%positive
           examples.hmax_array examples.topo_array).
  - reflexivity.
  - reflexivity.
Defined.

(** * The claim about the raster loader *)




(** * Further properties of the colour map builder *)

Section ColorMapEnds.
Context `{Float64Ops F}.
Implicit Types (clines : list F).

(** With more than one sample, [linspace] writes [stop] into the last
    element, whatever the arithmetic. *)
Lemma linspace_last (start stop : F) num y :
  np.linspace start stop num = Ok y → 1 < num →
  y !! Z.to_nat (num - 1) = Some stop.
Proof.
  intros Hy Hnum.
  destruct (linspace_length start stop num ltac:(lia)) as (y' & Hy' & Hlen).
  rewrite Hy in Hy'. injection Hy' as <-.
  unfold np.linspace in Hy.
  destruct (Z.ltb_spec num 0); [lia |].
  destruct (Z.ltb_spec 1 num); [| lia].
  injection Hy as Hy. rewrite <- Hy in Hlen |- *.
  rewrite set_last_length in Hlen. unfold np.set_last. rewrite Hlen.
  replace (Nat.pred (Z.to_nat num)) with (Z.to_nat (num - 1)) by lia.
  apply list_lookup_insert_eq. lia.
Qed.

Lemma nonempty_length clines : clines ≠ [] → 1 ≤ Z.of_nat (length clines).
Proof. destruct clines; [done | simpl; lia]. Qed.

Lemma n2_ge_2 nlines : 4 ≤ nlines → 2 ≤ n2 nlines.
Proof.
  intros Hn. unfold n2, n1.
  pose proof (Z.div_mod (nlines - 1) 2 ltac:(lia)).
  pose proof (Z.mod_pos_bound (nlines - 1) 2 ltac:(lia)). lia.
Qed.

Lemma n1_ge_2 nlines : 5 ≤ nlines → 2 ≤ n1 nlines.
Proof.
  intros Hn. unfold n1.
  pose proof (Z.div_mod (nlines - 1) 2 ltac:(lia)).
  pose proof (Z.mod_pos_bound (nlines - 1) 2 ltac:(lia)). lia.
Qed.

(** X1. For four or more breaks the last colour is exactly pure red
    (1, 0, 0), in every arithmetic: [ones] and [zeros] give Red and Blue,
    and [linspace] stores its [stop] value 0 as the last Green. *)
Theorem last_color_is_red clines :
  (4 ≤ length clines)%nat →
  ∃ colors, discrete_cmap_1 clines = Ok colors ∧
            last colors = Some (of_Z 1, of_Z 0, of_Z 0).
Proof.
  intros Hlen.
  assert (clines ≠ []) as Hne by (intros ->; simpl in Hlen; lia).
  destruct (discrete_cmap_1_channels clines Hne)
    as (g1 & g2 & r1 & r2 & b1 & b2 & Eg1 & Eg2 & Er1 & Er2 & Eb1 & Eb2 & E & L).
  simpl in *. destruct L as (Lg1 & Lr1 & Lb1 & Lg2 & Lr2 & Lb2).
  set (N := Z.of_nat (length clines)) in *.
  pose proof (n2_ge_2 N ltac:(lia)) as Hn2.
  pose proof (n1_nonneg N ltac:(lia)) as Hn1.
  eexists. split; [exact E |].
  rewrite last_lookup.
  rewrite (length_zip3 _ _ _ (Z.to_nat (n1 N) + Z.to_nat (n2 N))%nat)
    by (rewrite length_app; lia).
  replace (Nat.pred (Z.to_nat (n1 N) + Z.to_nat (n2 N)))
    with (Z.to_nat (n1 N) + Z.to_nat (n2 N - 1))%nat by lia.
  unfold np.ones in Er2. destruct (Z.ltb_spec (n2 N) 0); [lia |].
  injection Er2 as <-.
  unfold np.zeros in Eb2. destruct (Z.ltb_spec (n2 N) 0); [lia |].
  injection Eb2 as <-.
  apply lookup_zip3; rewrite lookup_app_r by lia.
  - rewrite Lr1. apply lookup_replicate_2. lia.
  - rewrite Lg1.
    replace (Z.to_nat (n1 N) + Z.to_nat (n2 N - 1) - Z.to_nat (n1 N))%nat
      with (Z.to_nat (n2 N - 1)) by lia.
    by apply (linspace_last (of_Z 1) (of_Z 0) (n2 N)); [| lia].
  - rewrite Lb1. apply lookup_replicate_2. lia.
Qed.

(** X2. For five or more breaks the last of the low intervals has exactly
    the colour (0.8, 1, 0.2), in every arithmetic: each of the three low
    ramps ends with the [stop] value that [linspace] stores. *)
Theorem low_ramp_ends_exactly clines :
  (5 ≤ length clines)%nat →
  ∃ colors, discrete_cmap_1 clines = Ok colors ∧
            colors !! Z.to_nat (n1 (Z.of_nat (length clines)) - 1)
            = Some (dec 8 10, of_Z 1, dec 2 10).
Proof.
  intros Hlen.
  assert (clines ≠ []) as Hne by (intros ->; simpl in Hlen; lia).
  destruct (discrete_cmap_1_channels clines Hne)
    as (g1 & g2 & r1 & r2 & b1 & b2 & Eg1 & Eg2 & Er1 & Er2 & Eb1 & Eb2 & E & L).
  simpl in *. destruct L as (Lg1 & Lr1 & Lb1 & Lg2 & Lr2 & Lb2).
  set (N := Z.of_nat (length clines)) in *.
  pose proof (n1_ge_2 N ltac:(lia)) as Hn1.
  eexists. split; [exact E |].
  apply lookup_zip3; rewrite lookup_app_l by lia.
  - by apply (linspace_last (of_Z 0) (dec 8 10) (n1 N)); [| lia].
  - by apply (linspace_last (of_Z 1) (of_Z 1) (n1 N)); [| lia].
  - by apply (linspace_last (of_Z 1) (dec 2 10) (n1 N)); [| lia].
Qed.

End ColorMapEnds.

Lemma last_color_is_red_witness :
  let clines := [0; 1; 2; 3; 4]%float in
  ∃ colors, discrete_cmap_1 (H := binary64_ops) clines = Ok colors ∧
            last colors = Some (1%float, 0%float, 0%float).
Proof.
  apply (last_color_is_red (H := binary64_ops) [0; 1; 2; 3; 4]%float).
  simpl. lia.
Defined.

Lemma low_ramp_ends_exactly_witness :
  let clines := [0; 1; 2; 3; 4]%float in
  ∃ colors, discrete_cmap_1 (H := binary64_ops) clines = Ok colors ∧
            colors !! Z.to_nat (n1 (Z.of_nat (length clines)) - 1)
            = Some (dec (H := binary64_ops) 8 10, 1%float,
                    dec (H := binary64_ops) 2 10).
Proof.
  apply (low_ramp_ends_exactly (H := binary64_ops) [0; 1; 2; 3; 4]%float).
  simpl. lia.
Defined.

(** The last colour for four or more breaks, by position. *)
Lemma last_interval_color `{Float64Ops F} (N : Z) :
  4 ≤ N →
  interval_color N (Z.to_nat (N - 2)) = (of_Z 1, of_Z 0, of_Z 0).
Proof.
  intros HN. pose proof (n2_ge_2 N HN) as Hn2.
  pose proof (n1_n2_sum N) as Hsum.
  pose proof (n1_nonneg N ltac:(lia)) as Hn1.
  unfold interval_color. rewrite decide_False by lia.
  do 2 f_equal. unfold linspace_at.
  destruct (Z.ltb_spec 1 (n2 N)); [| lia].
  destruct (Z.eqb_spec (Z.of_nat (Z.to_nat (N - 2) - Z.to_nat (n1 N)))
              (n2 N - 1)); [done | lia].
Qed.

Lemma two_or_three_breaks_binary64 :
  examples.colors_of_length 2 = Ok [(1, 1, 0)%float] ∧
  examples.colors_of_length 3 = Ok [(0, 1, 1)%float; (1, 1, 0)%float].
Proof. split; reflexivity. Qed.

(** X3. In binary64, for every breaks sequence of 3 to 257 values, the
    first colour is exactly turquoise (0, 1, 1), Green is exactly 1 on every
    low interval, and the colour of the first high interval, at position
    [n1], is exactly yellow (1, 1, 0). *)
Theorem turquoise_then_yellow (clines : list float) :
  (3 ≤ length clines ≤ 257)%nat →
  ∃ colors, discrete_cmap_1 (H := binary64_ops) clines = Ok colors ∧
    colors !! 0%nat = Some (0, 1, 1)%float ∧
    (∀ (k : nat) c, Z.of_nat k < n1 (Z.of_nat (length clines)) →
       colors !! k = Some c → c.1.2 = 1%float) ∧
    colors !! Z.to_nat (n1 (Z.of_nat (length clines)))
      = Some (1, 1, 0)%float.
Proof.
  intros Hlen.
  destruct (checked_colors clines) as (colors & E & Hchk).
  { unfold examples.max_breaks. lia. }
  exists colors. split; [done |].
  unfold examples.all_checks in Hchk.
  apply andb_prop in Hchk as [_ Hends].
  destruct (Nat.ltb_spec (length clines) 3) as [? | _]; [lia |].
  cbn [orb] in Hends. unfold examples.ends_check in Hends.
  apply andb_prop in Hends as [[Hfirst Hgreen]%andb_prop Hyellow].
  apply bool_decide_eq_true_1 in Hfirst, Hyellow.
  split; [done |]. split; [| done].
  intros k c Hk Hc. rewrite List.forallb_forall in Hgreen.
  assert (In c (take (Z.to_nat (n1 (Z.of_nat (length clines)))) colors))
    as Hin.
  { apply list_elem_of_In, (list_elem_of_lookup_2 _ k).
    rewrite lookup_take_lt by lia. done. }
  apply Hgreen in Hin. by apply bool_decide_eq_true_1 in Hin.
Qed.

Lemma turquoise_then_yellow_witness :
  let clines := [0; 1; 2; 3; 4]%float in
  ∃ colors, discrete_cmap_1 (H := binary64_ops) clines = Ok colors ∧
    colors !! 0%nat = Some (0, 1, 1)%float ∧
    (∀ (k : nat) c, Z.of_nat k < n1 (Z.of_nat (length clines)) →
       colors !! k = Some c → c.1.2 = 1%float) ∧
    colors !! Z.to_nat (n1 (Z.of_nat (length clines)))
      = Some (1, 1, 0)%float.
Proof.
  apply (turquoise_then_yellow [0; 1; 2; 3; 4]%float).
  simpl. lia.
Defined.

(** X4. In binary64, for two or more breaks the last colour is exactly red
    (1, 0, 0) exactly when there are at least four breaks; with two or
    three breaks the map ends at yellow (1, 1, 0). *)
Theorem red_needs_four_breaks (clines : list float) :
  (2 ≤ length clines)%nat →
  ∃ colors, discrete_cmap_1 (H := binary64_ops) clines = Ok colors ∧
    (last colors = Some (1, 0, 0)%float ↔ (4 ≤ length clines)%nat) ∧
    ((length clines < 4)%nat → last colors = Some (1, 1, 0)%float).
Proof.
  intros Hlen. destruct (decide (4 ≤ length clines)%nat) as [H4 | H4].
  - destruct (discrete_cmap_1_at (H := binary64_ops) clines)
      as (colors & E & L & Hk).
    { intros ->. simpl in Hlen. lia. }
    exists colors. split; [done |].
    assert (last colors = Some (1, 0, 0)%float) as ->.
    { rewrite last_lookup, L, Hk by lia.
      replace (Nat.pred (Nat.pred (length clines)))
        with (Z.to_nat (Z.of_nat (length clines) - 2)) by lia.
      by rewrite (last_interval_color (H := binary64_ops)) by lia. }
    split; [done | lia].
  - destruct two_or_three_breaks_binary64 as [E2 E3].
    rewrite (discrete_cmap_1_by_length (H := binary64_ops) clines).
    change (discrete_cmap_1 (H := binary64_ops)
              (replicate (length clines) (of_Z 0)))
      with (examples.colors_of_length (length clines)).
    assert (length clines = 2 ∨ length clines = 3)%nat as [-> | ->] by lia.
    + rewrite E2. eexists. split; [done |]. split; [| done].
      split; [| lia]. intros [= Hg].
    + rewrite E3. eexists. split; [done |]. split; [| done].
      split; [| lia]. intros [= Hg].
Qed.

Lemma red_needs_four_breaks_witness :
  let clines := [0; 1; 2]%float in
  ∃ colors, discrete_cmap_1 (H := binary64_ops) clines = Ok colors ∧
    (last colors = Some (1, 0, 0)%float ↔ (4 ≤ length clines)%nat) ∧
    ((length clines < 4)%nat → last colors = Some (1, 1, 0)%float).
Proof.
  apply (red_needs_four_breaks [0; 1; 2]%float).
  simpl. lia.
Defined.

(** X5. In binary64, for every breaks sequence of 2 to 257 values, no two
    intervals get the same colour. *)
Theorem colors_are_distinct (clines : list float) :
  (2 ≤ length clines ≤ 257)%nat →
  ∃ colors, discrete_cmap_1 (H := binary64_ops) clines = Ok colors ∧
            NoDup colors.
Proof.
  intros Hlen.
  destruct (checked_colors clines) as (colors & E & Hchk).
  { unfold examples.max_breaks. lia. }
  exists colors. split; [done |].
  unfold examples.all_checks in Hchk.
  apply andb_prop in Hchk as [[_ Hnodup]%andb_prop _].
  by apply bool_decide_eq_true_1 in Hnodup.
Qed.

Lemma colors_are_distinct_witness :
  let clines := [0; 1; 2; 3; 4]%float in
  ∃ colors, discrete_cmap_1 (H := binary64_ops) clines = Ok colors ∧
            NoDup colors.
Proof.
  apply (colors_are_distinct [0; 1; 2; 3; 4]%float).
  simpl. lia.
Defined.

(** X11. In binary64, for every breaks sequence of 2 to 257 values, every
    channel of every returned triple lies in [0, 1]. *)
Theorem binary64_channels_in_unit_interval (clines : list float) :
  (2 ≤ length clines ≤ 257)%nat →
  ∃ colors, discrete_cmap_1 (H := binary64_ops) clines = Ok colors ∧
    ∀ c, c ∈ colors →
      (PrimFloat.leb 0 c.1.1 = true ∧ PrimFloat.leb c.1.1 1 = true) ∧
      (PrimFloat.leb 0 c.1.2 = true ∧ PrimFloat.leb c.1.2 1 = true) ∧
      (PrimFloat.leb 0 c.2 = true ∧ PrimFloat.leb c.2 1 = true).
Proof.
  intros Hlen.
  destruct (checked_colors clines) as (colors & E & Hchk).
  { unfold examples.max_breaks. lia. }
  exists colors. split; [done |].
  unfold examples.all_checks in Hchk.
  apply andb_prop in Hchk as [[[Hunit _]%andb_prop _]%andb_prop _].
  rewrite List.forallb_forall in Hunit.
  intros c Hc%list_elem_of_In. specialize (Hunit c Hc).
  unfold examples.color_in_unit, examples.float_in_unit in Hunit.
  apply andb_prop in Hunit as [[[? ?]%andb_prop [? ?]%andb_prop]%andb_prop
                                 [? ?]%andb_prop].
  done.
Qed.

Lemma binary64_channels_in_unit_interval_witness :
  let clines := examples.depth_contour_levels in
  ∃ colors, discrete_cmap_1 (H := binary64_ops) clines = Ok colors ∧
    ∀ c, c ∈ colors →
      (PrimFloat.leb 0 c.1.1 = true ∧ PrimFloat.leb c.1.1 1 = true) ∧
      (PrimFloat.leb 0 c.1.2 = true ∧ PrimFloat.leb c.1.2 1 = true) ∧
      (PrimFloat.leb 0 c.2 = true ∧ PrimFloat.leb c.2 1 = true).
Proof.
  apply (binary64_channels_in_unit_interval examples.depth_contour_levels).
  simpl. lia.
Defined.

(** X12. In binary64, for every breaks sequence of 2 to 257 values, the
    colours are monotone along the whole sequence: from an earlier triple
    to a later one Red does not decrease, and Green and Blue do not
    increase. *)
Theorem binary64_monotone_channels (clines : list float) :
  (2 ≤ length clines ≤ 257)%nat →
  ∃ colors, discrete_cmap_1 (H := binary64_ops) clines = Ok colors ∧
    ∀ (i j : nat) ci cj, (i ≤ j)%nat →
      colors !! i = Some ci → colors !! j = Some cj →
      PrimFloat.leb ci.1.1 cj.1.1 = true ∧
      PrimFloat.leb cj.1.2 ci.1.2 = true ∧
      PrimFloat.leb cj.2 ci.2 = true.
Proof.
  intros Hlen.
  destruct (checked_colors clines) as (colors & E & Hchk).
  { unfold examples.max_breaks. lia. }
  exists colors. split; [done |].
  unfold examples.all_checks in Hchk.
  apply andb_prop in Hchk as [[[Hunit Hmono]%andb_prop _]%andb_prop _].
  intros i j ci cj Hij Hi Hj.
  pose proof (colors_monotone_pairs colors Hmono Hunit i j ci cj Hij Hi Hj)
    as Hstep.
  unfold examples.color_step in Hstep.
  apply andb_prop in Hstep as [[? ?]%andb_prop ?]. done.
Qed.

Lemma binary64_monotone_channels_witness :
  let clines := examples.depth_contour_levels in
  ∃ colors, discrete_cmap_1 (H := binary64_ops) clines = Ok colors ∧
    ∀ (i j : nat) ci cj, (i ≤ j)%nat →
      colors !! i = Some ci → colors !! j = Some cj →
      PrimFloat.leb ci.1.1 cj.1.1 = true ∧
      PrimFloat.leb cj.1.2 ci.1.2 = true ∧
      PrimFloat.leb cj.2 ci.2 = true.
Proof.
  apply (binary64_monotone_channels examples.depth_contour_levels).
  simpl. lia.
Defined.

(** * Further properties of the masking cell *)

Section MaskingOutcome.
Context `{Float64Ops F}.
Import ma.
Implicit Types (σ : gmap loc (obj F)) (l : loc).

Lemma masked_where_mismatch σ c a cond d m :
  σ !! c = Some (BoolArray cond) → σ !! a = Some (MaskedArray d m) →
  shape cond ≠ shape d →
  masked_where c a σ = (Raise IndexError, σ).
Proof.
  intros Hc Ha Hs. unfold masked_where, py_bind, deref. rewrite Hc, Ha.
  by rewrite decide_False.
Qed.

(** On loaded arrays of different shapes the first statement is carried
    out and the second raises. *)
Lemma masking_cell_mismatch σ hmax topo (h t : ndarray F) :
  σ !! hmax = Some (NdArray h) →
  σ !! topo = Some (NdArray t) →
  shape t ≠ shape h →
  ∃ hmax_dry σ',
    masking_cell hmax topo σ = (Raise IndexError, σ') ∧
    σ !! hmax_dry = None ∧
    σ' !! hmax_dry = Some (MaskedArray h (dry_mask h)).
Proof.
  intros Hh Ht Hs. unfold masking_cell, py_bind.
  destruct (less_spec σ hmax h (dec 1 1000) Hh) as (l1 & -> & F1).
  set (σ1 := <[l1 := _]> σ) in *.
  destruct (masked_where_array σ1 l1 hmax (dry_mask h) h) as (l2 & -> & F2).
  { apply lookup_insert_eq. }
  { by apply insert_fresh_lookup. }
  { done. }
  set (σ2 := <[l2 := _]> σ1) in *.
  assert (σ2 !! topo = Some (NdArray t)) as Ht2
    by by do 2 (apply insert_fresh_lookup; [done |]).
  destruct (less_spec σ2 topo t (of_Z 0) Ht2) as (l3 & -> & F3).
  set (σ3 := <[l3 := _]> σ2) in *.
  rewrite (masked_where_mismatch σ3 l3 l2 (water_mask t) h (dry_mask h)).
  - exists l2, σ3. split; [done |]. split.
    + eapply lookup_weaken_None; [exact F2 | by apply insert_subseteq].
    + apply insert_fresh_lookup; [done | apply lookup_insert_eq].
  - apply lookup_insert_eq.
  - apply insert_fresh_lookup; [done | apply lookup_insert_eq].
  - done.
Qed.

Lemma dry_mask_lookup (h : ndarray F) i hi :
  flat h !! i = Some hi →
  flat (dry_mask h) !! i = Some (fltb hi (dec 1 1000)).
Proof. intros Hi. simpl. by rewrite list_lookup_fmap, Hi. Qed.

Lemma onshore_mask_lookup (h t : ndarray F) i hi ti :
  flat h !! i = Some hi → flat t !! i = Some ti →
  flat (mask_or (water_mask t) (dry_mask h)) !! i
  = Some (fltb ti (of_Z 0) || fltb hi (dec 1 1000)).
Proof.
  intros Hi Ti. simpl.
  by rewrite lookup_zip_with, !list_lookup_fmap, Hi, Ti.
Qed.

End MaskingOutcome.

(** X7. On two loaded arrays the masking cell raises exactly when their
    shapes differ, and then an [IndexError] and nothing else; the first
    statement has been carried out by then: [hmax_dry] exists as a new
    object. *)
Theorem masking_fails_on_shape_mismatch `{Float64Ops F}
    (σ : gmap ma.loc (ma.obj F)) (hmax topo : ma.loc) (h t : ma.ndarray F) :
  σ !! hmax = Some (ma.NdArray h) →
  σ !! topo = Some (ma.NdArray t) →
  (∀ e, (ma.masking_cell hmax topo σ).1 = Raise e
        ↔ e = IndexError ∧ ma.shape t ≠ ma.shape h) ∧
  (ma.shape t ≠ ma.shape h →
   ∃ hmax_dry,
     σ !! hmax_dry = None ∧
     (ma.masking_cell hmax topo σ).2 !! hmax_dry
     = Some (ma.MaskedArray h (ma.dry_mask h))).
Proof.
  intros Hh Ht. destruct (decide (ma.shape t = ma.shape h)) as [Hs | Hs].
  - destruct (masking_cell_same_shape σ hmax topo h t Hh Ht Hs)
      as (dry & onshore & σ' & -> & _).
    split; [| done]. intros e. simpl. split; [done | by intros [_ ?]].
  - destruct (masking_cell_mismatch σ hmax topo h t Hh Ht Hs)
      as (dry & σ' & -> & Hnew & Hdry).
    split.
    + intros e. simpl. split; [by intros [= <-] | by intros [-> _]].
    + intros _. by exists dry.
Qed.

Lemma masking_fails_on_shape_mismatch_witness :
  let t := ma.Array (2%nat, 1%nat) [Qc_of_Z 1; Qc_of_Z (-1)] in
  let σ := <[2%positive := ma.NdArray t]> examples.loaded_heap in
  (∀ e, (ma.masking_cell 1%positive 2%positive σ).1 = Raise e
        ↔ e = IndexError ∧ ma.shape t ≠ ma.shape examples.hmax_array) ∧
  (ma.shape t ≠ ma.shape examples.hmax_array →
   ∃ hmax_dry,
     σ !! hmax_dry = None ∧
     (ma.masking_cell 1%positive 2%positive σ).2 !! hmax_dry
     = Some (ma.MaskedArray examples.hmax_array
               (ma.dry_mask examples.hmax_array))).
Proof.
  apply (masking_fails_on_shape_mismatch
           (<[2%positive := ma.NdArray
                (ma.Array (2%nat, 1%nat) [Qc_of_Z 1; Qc_of_Z (-1)])]>
              examples.loaded_heap)
           1%positive 2%positive examples.hmax_array
           (ma.Array (2%nat, 1%nat) [Qc_of_Z 1; Qc_of_Z (-1)])).
  - reflexivity.
  - reflexivity.
Defined.

(** X8. On two loaded arrays of one shape, in every arithmetic, a cell of
    [hmax_dry] is masked exactly when [hmax < 0.001] there, and a cell of
    [hmax_onshore] exactly when [topo < 0] or [hmax < 0.001] there; both
    results keep the data and the shape of [hmax]. *)
Theorem masks_cell_by_cell `{Float64Ops F}
    (σ : gmap ma.loc (ma.obj F)) (hmax topo : ma.loc) (h t : ma.ndarray F) :
  σ !! hmax = Some (ma.NdArray h) →
  σ !! topo = Some (ma.NdArray t) →
  ma.shape t = ma.shape h →
  ∃ hmax_dry hmax_onshore σ' dry onshore,
    ma.masking_cell hmax topo σ = (Ok (hmax_dry, hmax_onshore), σ') ∧
    σ' !! hmax_dry = Some (ma.MaskedArray h dry) ∧
    σ' !! hmax_onshore = Some (ma.MaskedArray h onshore) ∧
    ma.shape dry = ma.shape h ∧ ma.shape onshore = ma.shape h ∧
    ∀ i hi ti,
      ma.flat h !! i = Some hi → ma.flat t !! i = Some ti →
      ma.flat dry !! i = Some (fltb hi (dec 1 1000)) ∧
      ma.flat onshore !! i = Some (fltb ti (of_Z 0) || fltb hi (dec 1 1000)).
Proof.
  intros Hh Ht Hs.
  destruct (masking_cell_same_shape σ hmax topo h t Hh Ht Hs)
    as (dry & onshore & σ' & E & _ & _ & _ & Hdry & Honshore & _).
  exists dry, onshore, σ', (ma.dry_mask h),
    (ma.mask_or (ma.water_mask t) (ma.dry_mask h)).
  repeat split; try done.
  - by apply dry_mask_lookup.
  - by apply onshore_mask_lookup.
Qed.

Lemma masks_cell_by_cell_witness :
  ∃ hmax_dry hmax_onshore σ' dry onshore,
    ma.masking_cell 1%positive 2%positive examples.loaded_heap
      = (Ok (hmax_dry, hmax_onshore), σ') ∧
    σ' !! hmax_dry = Some (ma.MaskedArray examples.hmax_array dry) ∧
    σ' !! hmax_onshore = Some (ma.MaskedArray examples.hmax_array onshore) ∧
    ma.shape dry = ma.shape examples.hmax_array ∧
    ma.shape onshore = ma.shape examples.hmax_array ∧
    ∀ i hi ti,
      ma.flat examples.hmax_array !! i = Some hi →
      ma.flat examples.topo_array !! i = Some ti →
      ma.flat dry !! i = Some (fltb hi (dec 1 1000)) ∧
      ma.flat onshore !! i = Some (fltb ti (of_Z 0) || fltb hi (dec 1 1000)).
Proof.
  apply (masks_cell_by_cell examples.loaded_heap 1%positive 2%positive
           examples.hmax_array examples.topo_array).
  - reflexivity.
  - reflexivity.
  - reflexivity.
Defined.

(** * The maximum depth of the title *)

Section MaximumFacts.
Context {F : Type} {ops : Float64Ops F} {order : Float64Order F}.
Import ma.
Implicit Types (x y m v : F) (l : list F).

Lemma maximum_cases x y : maximum x y = x ∨ maximum x y = y.
Proof. unfold maximum. destruct (_ || _); auto. Qed.

Lemma maximum_nan_l x y : isnan x = true → maximum x y = x.
Proof. unfold maximum. intros ->. by rewrite orb_true_r. Qed.

Lemma maximum_nan_r x y : isnan x = false → isnan y = true → maximum x y = y.
Proof.
  unfold maximum, fge, isnan. intros Hx Hy. rewrite Hx.
  apply negb_true_iff in Hy.
  destruct (nan_unordered x y Hy) as (-> & _ & ->). done.
Qed.

(** On two numbers the maximum is no less than either, and no less than
    whatever its first argument is no less than. *)
Lemma maximum_upper x y :
  isnan x = false → isnan y = false →
  fltb (maximum x y) x = false ∧ fltb (maximum x y) y = false ∧
  (∀ v, fltb x v = false → fltb (maximum x y) v = false).
Proof.
  unfold isnan. intros Hx%negb_false_iff Hy%negb_false_iff.
  unfold maximum, fge, isnan. rewrite Hx. cbn [negb]. rewrite orb_false_r.
  destruct (fltb y x) eqn:Hyx; cbn [orb].
  - split; [apply fltb_irrefl |]. split; [| done].
    destruct (fltb x y) eqn:Hxy; [| done].
    by rewrite <- (fltb_irrefl x), (fltb_trans x y x Hxy Hyx).
  - destruct (feqb x y) eqn:Exy.
    + split; [apply fltb_irrefl |]. split; [| done]. by apply feqb_not_lt.
    + split; [done |]. split; [apply fltb_irrefl |].
      intros v Hv. destruct (fltb y v) eqn:Hyv; [| done].
      pose proof (fltb_total x y Hx Hy Hyx Exy) as Hxy.
      by rewrite <- Hv, (fltb_trans x y v Hxy Hyv).
Qed.

Lemma foldl_maximum_elem l : ∀ acc,
  foldl maximum acc l = acc ∨ foldl maximum acc l ∈ l.
Proof.
  induction l as [| y l IH]; intros acc; simpl; [by left |].
  destruct (IH (maximum acc y)) as [-> | Hin]; [| right; by right].
  destruct (maximum_cases acc y) as [-> | ->]; [by left | right; by left].
Qed.

Lemma foldl_maximum_nan l : ∀ acc,
  isnan acc = true ∨ (∃ v, v ∈ l ∧ isnan v = true) →
  isnan (foldl maximum acc l) = true.
Proof.
  induction l as [| y l IH]; intros acc Hnan; simpl.
  - destruct Hnan as [? | (v & Hv & _)]; [done |]. by apply elem_of_nil in Hv.
  - apply IH. destruct (isnan acc) eqn:Hacc.
    + left. by rewrite maximum_nan_l.
    + destruct Hnan as [? | (v & [-> | Hv]%elem_of_cons & Hnan)]; [done | |].
      * left. by rewrite maximum_nan_r.
      * right. by exists v.
Qed.

Lemma foldl_maximum_upper l : ∀ acc,
  isnan acc = false → (∀ v, v ∈ l → isnan v = false) →
  ∀ bound,
    (∀ v, v ∈ bound → fltb acc v = false) →
    ∀ v, v ∈ bound ++ l → fltb (foldl maximum acc l) v = false.
Proof.
  induction l as [| y l IH]; intros acc Hacc Hl bound Hb v Hv; simpl.
  - rewrite app_nil_r in Hv. by apply Hb.
  - destruct (maximum_upper acc y Hacc (Hl y ltac:(left))) as (Hx & Hy & Hmono).
    apply (IH (maximum acc y)) with (bound := bound ++ [y]).
    + destruct (maximum_cases acc y) as [-> | ->]; [done |]. apply Hl. by left.
    + intros w Hw. apply Hl. by right.
    + intros w [Hw | ->%list_elem_of_singleton]%elem_of_app;
        [by apply Hmono, Hb | done].
    + by rewrite <- app_assoc.
Qed.

Lemma amax_elem l m : amax l = Some m → m ∈ l.
Proof.
  destruct l as [| y l]; [done |]. intros [= <-].
  destruct (foldl_maximum_elem l y) as [-> | Hin]; [by left | by right].
Qed.

Lemma amax_nan l m :
  amax l = Some m → (∃ v, v ∈ l ∧ isnan v = true) → isnan m = true.
Proof.
  destruct l as [| y l]; [done |]. intros [= <-] (v & Hv & Hnan).
  apply foldl_maximum_nan. apply elem_of_cons in Hv as [-> | Hv]; [by left |].
  right. by exists v.
Qed.

Lemma amax_upper l m :
  amax l = Some m → (∀ v, v ∈ l → isnan v = false) →
  ∀ v, v ∈ l → fltb m v = false.
Proof.
  destruct l as [| y l]; [done |]. intros [= <-] Hl v Hv.
  apply (foldl_maximum_upper l y (Hl y ltac:(left))
           (λ w Hw, Hl w ltac:(by right)) [y]); [| done].
  intros w ->%list_elem_of_singleton. apply fltb_irrefl.
Qed.

Lemma amax_None l : amax l = None ↔ l = [].
Proof. by destruct l. Qed.

Lemma elem_of_compressed (d : ndarray F) (mask : ndarray bool) x :
  x ∈ compressed d mask
  ↔ ∃ i : nat, flat d !! i = Some x ∧ flat mask !! i = Some false.
Proof.
  unfold compressed. rewrite list_elem_of_fmap. split.
  - intros ([x' b] & -> & [Hb Hin]%list_elem_of_filter). simpl in *. subst b.
    apply list_elem_of_lookup in Hin as [i Hi].
    apply lookup_zip_with_Some in Hi as (x'' & b & [= <- <-] & Hx & Hb).
    by exists i.
  - intros (i & Hx & Hb). exists (x, false). split; [done |].
    apply list_elem_of_filter. split; [done |].
    apply list_elem_of_lookup. exists i.
    apply lookup_zip_with_Some. by exists x, false.
Qed.

(** A cell of [hmax_onshore] is not masked exactly when neither comparison
    of the masking cell holds there. *)
Lemma onshore_mask_visible (h t : ndarray F) (i : nat) hi ti :
  flat h !! i = Some hi → flat t !! i = Some ti →
  flat (mask_or (water_mask t) (dry_mask h)) !! i = Some false
  ↔ fltb hi (dec 1 1000) = false ∧ fltb ti (of_Z 0) = false.
Proof.
  intros Hi Ti. rewrite (onshore_mask_lookup h t i hi ti Hi Ti).
  split.
  - by intros [= [? ?]%orb_false_elim].
  - intros [-> ->]. done.
Qed.

Lemma onshore_mask_defined (h t : ndarray F) (i : nat) b :
  flat (mask_or (water_mask t) (dry_mask h)) !! i = Some b →
  ∃ hi ti, flat h !! i = Some hi ∧ flat t !! i = Some ti.
Proof.
  simpl. intros (bw & bd & _ & Hw & Hd)%lookup_zip_with_Some.
  rewrite list_lookup_fmap in Hw, Hd.
  destruct (flat t !! i) as [ti |]; [| done].
  destruct (flat h !! i) as [hi |]; [| done]. by exists hi, ti.
Qed.

End MaximumFacts.

(** X9. In every arithmetic with the order laws (binary64 and the exact
    rationals), on two loaded arrays of one shape, [hmax_onshore.max()]
    raises [ValueError] on zero-size arrays; otherwise it returns.  Its
    value is the constant [ma.masked] exactly when every cell is masked
    ([hmax < 0.001] or [topo < 0] there).  Otherwise it is the depth of a
    cell that is not masked; it is a NaN as soon as the depth of such a
    cell is a NaN; and when it is a number, no such cell is deeper. *)
Theorem maximum_depth_is_wet_onshore_maximum
    {F : Type} {ops : Float64Ops F} {order : Float64Order F}
    (σ : gmap ma.loc (ma.obj F)) (hmax topo : ma.loc) (h t : ma.ndarray F) :
  σ !! hmax = Some (ma.NdArray h) →
  σ !! topo = Some (ma.NdArray t) →
  ma.shape t = ma.shape h →
  ∃ r σ',
    ma.maximum_depth hmax topo σ = (r, σ') ∧
    (ma.flat h = [] → r = Raise ValueError) ∧
    (ma.flat h ≠ [] →
     ∃ v, r = Ok v ∧
       (∀ m, v = Some m →
          (∃ (i : nat) ti,
             ma.flat h !! i = Some m ∧ ma.flat t !! i = Some ti ∧
             fltb m (dec 1 1000) = false ∧ fltb ti (of_Z 0) = false) ∧
          (∀ (j : nat) hj tj,
             ma.flat h !! j = Some hj → ma.flat t !! j = Some tj →
             fltb hj (dec 1 1000) = false → fltb tj (of_Z 0) = false →
             (ma.isnan hj = true → ma.isnan m = true) ∧
             (ma.isnan m = false → fltb m hj = false))) ∧
       (v = None ↔
        ∀ (j : nat) hj tj,
          ma.flat h !! j = Some hj → ma.flat t !! j = Some tj →
          fltb hj (dec 1 1000) = true ∨ fltb tj (of_Z 0) = true)).
Proof.
  intros Hh Ht Hs.
  destruct (masking_cell_same_shape σ hmax topo h t Hh Ht Hs)
    as (dry & onshore & σ' & E & _ & _ & _ & _ & Honshore & _).
  set (mask := ma.mask_or (ma.water_mask t) (ma.dry_mask h)) in *.
  unfold ma.maximum_depth, ma.py_bind. rewrite E. simpl.
  unfold ma.array_max, ma.py_bind, ma.deref. rewrite Honshore.
  destruct (decide (ma.flat h = [])) as [Hflat | Hflat].
  { rewrite Hflat. exists (Raise ValueError), σ'. by repeat split. }
  exists (Ok (ma.amax (ma.compressed h mask))), σ'.
  split; [by destruct (ma.flat h) |]. split; [done |]. intros _.
  exists (ma.amax (ma.compressed h mask)). split; [done |]. split.
  - intros m Hm. split.
    + apply amax_elem, elem_of_compressed in Hm as (i & Hi & Hmask).
      destruct (onshore_mask_defined h t i false Hmask) as (hi & ti & Hi' & Ti).
      rewrite Hi in Hi'. injection Hi' as <-.
      pose proof (proj1 (onshore_mask_visible h t i m ti Hi Ti) Hmask) as [? ?].
      by exists i, ti.
    + intros j hj tj Hj Tj Hwet Hland.
      assert (hj ∈ ma.compressed h mask) as Hin.
      { apply elem_of_compressed. exists j. split; [done |].
        by apply (onshore_mask_visible h t j hj tj Hj Tj). }
      split.
      * intros Hnan. apply (amax_nan _ _ Hm). by exists hj.
      * intros Hnum. apply (amax_upper _ _ Hm); [| done].
        intros w Hw. destruct (ma.isnan w) eqn:Hnan; [| done].
        rewrite <- Hnum. symmetry. apply (amax_nan _ _ Hm). by exists w.
  - rewrite amax_None. split.
    + intros Hnone j hj tj Hj Tj.
      destruct (fltb hj (dec 1 1000)) eqn:Hwet; [by left |].
      destruct (fltb tj (of_Z 0)) eqn:Hland; [by right |].
      assert (hj ∈ ma.compressed h mask) as Hin.
      { apply elem_of_compressed. exists j. split; [done |].
        by apply (onshore_mask_visible h t j hj tj Hj Tj). }
      rewrite Hnone in Hin. by apply elem_of_nil in Hin.
    + intros Hall. apply elem_of_nil_inv. intros x Hin.
      apply elem_of_compressed in Hin as (i & Hi & Hmask).
      destruct (onshore_mask_defined h t i false Hmask) as (hi & ti & Hi' & Ti).
      rewrite Hi in Hi'. injection Hi' as <-.
      pose proof (proj1 (onshore_mask_visible h t i x ti Hi Ti) Hmask)
        as [Hwet Hland].
      destruct (Hall i x ti Hi Ti) as [Hd | Hw]; congruence.
Qed.

Lemma maximum_depth_is_wet_onshore_maximum_witness :
  ∃ r σ',
    ma.maximum_depth (H := binary64_ops) 1%positive 2%positive
      examples.float_heap = (r, σ') ∧
    (ma.flat examples.depth_array = [] → r = Raise ValueError) ∧
    (ma.flat examples.depth_array ≠ [] →
     ∃ v, r = Ok v ∧
       (∀ m, v = Some m →
          (∃ (i : nat) ti,
             ma.flat examples.depth_array !! i = Some m ∧
             ma.flat examples.land_array !! i = Some ti ∧
             PrimFloat.ltb m (dec (H := binary64_ops) 1 1000) = false ∧
             PrimFloat.ltb ti 0 = false) ∧
          (∀ (j : nat) hj tj,
             ma.flat examples.depth_array !! j = Some hj →
             ma.flat examples.land_array !! j = Some tj →
             PrimFloat.ltb hj (dec (H := binary64_ops) 1 1000) = false →
             PrimFloat.ltb tj 0 = false →
             (ma.isnan (H := binary64_ops) hj = true →
              ma.isnan (H := binary64_ops) m = true) ∧
             (ma.isnan (H := binary64_ops) m = false →
              PrimFloat.ltb m hj = false))) ∧
       (v = None ↔
        ∀ (j : nat) hj tj,
          ma.flat examples.depth_array !! j = Some hj →
          ma.flat examples.land_array !! j = Some tj →
          PrimFloat.ltb hj (dec (H := binary64_ops) 1 1000) = true ∨
          PrimFloat.ltb tj 0 = true)).
Proof.
  apply (maximum_depth_is_wet_onshore_maximum (ops := binary64_ops)
           (order := binary64_order) examples.float_heap
           1%positive 2%positive examples.depth_array examples.land_array).
  - reflexivity.
  - reflexivity.
  - reflexivity.
Defined.
